(** * The counter reducer of [src/reducers/counterReducer.js]

    A shallow embedding of the reducer and of the fragment of JavaScript it
    runs on: IEEE-754 binary64 numbers, the primitive values, plain data
    objects living in a heap of references, property reads that throw on
    [null] and [undefined], strict equality, and [+] with the literal [1] on
    its right. *)

From Stdlib Require Import ZArith NArith Lia Bool Floats.SpecFloat Strings.String.
From stdpp Require Import gmap strings list.

Local Open Scope Z_scope.

(** ** Numbers: IEEE-754 binary64 *)

Module Num.

(** A JavaScript Number is a double: 53 bits of precision, infinities at
    exponent 1024.  [spec_float] is the Standard Library's specification of
    those values (there is a single NaN, as in JavaScript). *)
Definition number : Type := spec_float.

Definition prec : Z := 53.
Definition emax : Z := 1024.

(** The values that really are doubles: mantissa and exponent canonical. *)
Definition valid (x : number) : bool := valid_binary prec emax x.

(** [x + y] on Numbers, rounding to nearest, ties to even. *)
Definition add (x y : number) : number := SFadd prec emax x y.

(** [x === y] on Numbers: NaN differs from itself, [+0] equals [-0]. *)
Definition eqb (x y : number) : bool := SFeqb x y.

(** The double nearest to the integer [z]; a numeric literal. *)
Definition of_Z (z : Z) : number := binary_normalize prec emax z 0 false.

Definition nan : number := S754_nan.
Definition zero : number := Eval vm_compute in of_Z 0.
Definition one : number := Eval vm_compute in of_Z 1.

Definition signed (s : bool) (z : Z) : Z := if s then - z else z.

(** [Number.isInteger]: the integer a double denotes, when it denotes one.
    [-0] denotes 0; NaN, the infinities and fractions denote none. *)
Definition to_Z (x : number) : option Z :=
  match x with
  | S754_zero _ => Some 0
  | S754_finite s m e =>
      if negb (valid x) then None
      else if 0 <=? e then Some (signed s (Z.pos m * 2 ^ e))
      else if Z.pos m mod 2 ^ (- e) =? 0 then Some (signed s (Z.pos m / 2 ^ (- e)))
      else None
  | _ => None
  end.

(** The largest count reached by adding [1]: [2 ^ 53 + 1] is not a double. *)
Definition limit : Z := 2 ^ 53.

End Num.

(** ** Values, objects and the heap *)

Module Js.

Abbreviation loc := nat.

Inductive value : Type :=
| VUndefined
| VNull
| VBool (b : bool)
| VNum (x : Num.number)
| VBigInt (z : Z)
| VStr (s : string)
| VSymbol (id : nat)
| VObj (l : loc).

#[export] Instance number_eq_dec : EqDecision Num.number.
Proof. unfold Num.number. solve_decision. Defined.

#[export] Instance value_eq_dec : EqDecision value.
Proof. solve_decision. Defined.

(** A plain data object: own data properties only, keyed by name (no
    accessor, no function, no symbol key).  Its prototype is
    [Object.prototype], which defines neither [type] nor [clicks]. *)
Abbreviation obj := (gmap string value).

(** Objects are reached through references; the heap only grows, and a
    new object takes the next free location. *)
Abbreviation heap := (list (gmap string value)).

Definition alloc (h : heap) (o : obj) : heap * value :=
  (h ++ [o], VObj (length h)).

(** A completion: a value, or the [TypeError] exception. *)
Inductive result (A : Type) : Type :=
| Ok (a : A)
| TypeError.
Arguments Ok {A} a.
Arguments TypeError {A}.

Definition bind {A B : Type} (r : result A) (k : A -> result B) : result B :=
  match r with
  | Ok a => k a
  | TypeError => TypeError
  end.

(** [v.k] for the property names the reducer reads, [type] and [clicks],
    and for any other name that no prototype defines: reading a property
    of [undefined] or [null] throws; a primitive has no such property; an
    object yields its own property, or [undefined] when it has none (as
    does a location the heap does not hold).  The names that
    [Object.prototype] defines ([toString], [constructor], ...) are not in
    its domain: the properties an object has of its own are told by the
    object itself. *)
Definition get (h : heap) (v : value) (k : string) : result value :=
  match v with
  | VUndefined | VNull => TypeError
  | VBool _ | VNum _ | VBigInt _ | VStr _ | VSymbol _ => Ok VUndefined
  | VObj l =>
      match h !! l with
      | Some o => Ok (default VUndefined (o !! k))
      | None => Ok VUndefined
      end
  end.

(** [v === w], the comparison [switch] makes with each [case]. *)
Definition strict_equals (v w : value) : bool :=
  match v, w with
  | VUndefined, VUndefined => true
  | VNull, VNull => true
  | VBool b, VBool c => Bool.eqb b c
  | VNum x, VNum y => Num.eqb x y
  | VBigInt x, VBigInt y => Z.eqb x y
  | VStr s, VStr t => String.eqb s t
  | VSymbol i, VSymbol j => Nat.eqb i j
  | VObj l, VObj m => Nat.eqb l m
  | _, _ => false
  end.

(** [v + 1].  The left operand is first made a primitive: an object has
    no callable [valueOf] or [toString] of its own, the inherited
    [valueOf] returns the object, so the inherited [toString] decides and
    gives ["[object Object]"], unless an own [toString] property hides it,
    which throws.  A string then concatenates the text of [1]; a BigInt
    does not mix with a Number and a Symbol is not converted to one, both
    throw; everything else is converted to a Number and added. *)
Definition add_one (h : heap) (v : value) : result value :=
  match v with
  | VUndefined => Ok (VNum (Num.add Num.nan Num.one))
  | VNull => Ok (VNum (Num.add Num.zero Num.one))
  | VBool b => Ok (VNum (Num.add (if b then Num.one else Num.zero) Num.one))
  | VNum x => Ok (VNum (Num.add x Num.one))
  | VBigInt _ => TypeError
  | VStr s => Ok (VStr (s ++ "1"))
  | VSymbol _ => TypeError
  | VObj l =>
      match o ← h !! l; o !! "toString"%string with
      | Some _ => TypeError
      | None => Ok (VStr "[object Object]1")
      end
  end.

End Js.

Import Js.

(** Completions compose as an error monad: [x ← r; k] stops at a throw. *)
#[export] Instance result_bind : MBind result := fun _ _ k r => bind r k.
#[export] Instance result_ret : MRet result := fun _ a => Ok a.

(** ** The reducer *)

(** The object literal [{ clicks: c }]. *)
Definition record (c : value) : obj := {[ "clicks"%string := c ]}.

(** [state = { clicks: 0 }]: an [undefined] argument, and only that one, is
    replaced by a new object built at the call. *)
Definition default_state (h : heap) (state : value) : heap * value :=
  match state with
  | VUndefined => alloc h (record (VNum Num.zero))
  | _ => (h, state)
  end.

Definition INCREASE_COUNT : value := VStr "INCREASE_COUNT".

Definition counterReducer (h : heap) (state action : value) : result (heap * value) :=
  let '(h1, state) := default_state h state in
  t ← get h1 action "type";
  if strict_equals t INCREASE_COUNT then
    c ← get h1 state "clicks";
    c' ← add_one h1 c;
    mret (alloc h1 (record c'))
  else
    mret (h1, state).

(** ** Running the reducer from the initial state *)

(** The state a store starts from: the reducer run on [undefined]. *)
Definition init (h : heap) (a0 : value) : result (heap * value) :=
  counterReducer h VUndefined a0.

(** One dispatch: the reducer run on the current state. *)
Definition dispatch (a : value) (st : result (heap * value)) : result (heap * value) :=
  '(h, state) ← st; counterReducer h state a.

(** [n] dispatches of [a] after the initial one with [a0]. *)
Definition run (n : N) (h : heap) (a0 a : value) : result (heap * value) :=
  N.iter n (dispatch a) (init h a0).

(** ** Observations *)

(** The [clicks] field of a state, for a state that is an object. *)
Definition clicks (h : heap) (s : value) : option value :=
  match s with
  | VObj l => o ← h !! l; o !! "clicks"%string
  | _ => None
  end.

(** The integer held in the [clicks] field, when there is one. *)
Definition clicks_int (h : heap) (s : value) : option Z :=
  match clicks h s with
  | Some (VNum x) => Num.to_Z x
  | _ => None
  end.

Definition result_clicks (r : result (heap * value)) : option Z :=
  match r with
  | Ok (h, s) => clicks_int h s
  | TypeError => None
  end.

(** What a caller can tell of a returned value: a primitive itself, an
    object by its properties. *)
Definition view (h : heap) (v : value) : value + option obj :=
  match v with
  | VObj l => inr (h !! l)
  | _ => inl v
  end.

Definition result_view (r : result (heap * value)) : option (value + option obj) :=
  match r with
  | Ok (h, v) => Some (view h v)
  | TypeError => None
  end.

(** A heap with the three actions of the scenarios. *)
Definition action (t : string) : obj := {[ "type"%string := VStr t ]}.
Definition actions : heap :=
  [action "@@redux/INIT"; action "INCREASE_COUNT"; action "DECREASE_COUNT"].
Definition INIT : value := VObj 0%nat.
Definition INCREASE : value := VObj 1%nat.
Definition DECREASE : value := VObj 2%nat.

(** The states a store goes through: the initial one, then one per
    dispatch; between two dispatches the heap may have grown. *)
Inductive reachable : heap -> value -> Prop :=
| reach_init h a0 h' s' :
    init h a0 = Ok (h', s') -> reachable h' s'
| reach_step h s h1 a h' s' :
    reachable h s -> h `prefix_of` h1 ->
    counterReducer h1 s a = Ok (h', s') -> reachable h' s'.

(** A state holding the largest count, [2 ^ 53]. *)
Definition at_limit : heap := actions ++ [record (VNum (Num.of_Z Num.limit))].
Definition LIMIT : value := VObj 3%nat.

(** What [n] dispatches of an [INCREASE_COUNT] action [a] maintain: a state
    whose count is known, in a heap where [a] still reads the same. *)
Definition counted (a : value) (r : result (heap * value)) (c : Z) : Prop :=
  exists h s, r = Ok (h, s) /\ clicks_int h s = Some c
    /\ get h a "type" = Ok INCREASE_COUNT.

(** A state whose count is the BigInt [5n]. *)
Definition with_bigint : heap := actions ++ [record (VBigInt 5)].
Definition BIG : value := VObj 3%nat.

(** A state with a field besides [clicks]: [{ clicks: 5, user: "ann" }]. *)
Definition with_user : heap :=
  actions ++ [<["user"%string := VStr "ann"]> (record (VNum (Num.of_Z 5)))].
Definition USER : value := VObj 3%nat.

(** ** Rounding, as arithmetic *)

(** The sticky bit after dropping [k + 1] bits of [m]: were any of the low
    [k] bits set. *)
Definition sticky (m k : Z) : bool := negb (m mod 2 ^ k =? 0).

(** What rounding makes of the mantissa [q], round bit [r] and sticky bit
    [t] of a sum aligned at exponent [-52] and shifted by [k]: the mantissa
    rounded to nearest, ties to even, renormalised when it reaches
    [2 ^ 53]. *)
Definition round_result (s : bool) (q k : Z) (r t : bool) : spec_float :=
  let q' := round_nearest_even q (loc_of_shr_record (Build_shr_record q r t)) in
  if q' =? 2 ^ 53 then
    if k - 51 <=? 971 then S754_finite s (Z.to_pos (2 ^ 52)) (k - 51) else S754_infinity s
  else
    if k - 52 <=? 971 then S754_finite s (Z.to_pos q') (k - 52) else S754_infinity s.

(** ** Sequences of dispatches *)

(** Is [a] an action the reducer counts: does its [type] read as the string
    "INCREASE_COUNT". *)
Definition is_increase (h : heap) (a : value) : bool :=
  match get h a "type" with
  | Ok t => strict_equals t INCREASE_COUNT
  | TypeError => false
  end.

(** How many actions of a sequence the reducer counts. *)
Fixpoint increases (h : heap) (acts : list value) : Z :=
  match acts with
  | [] => 0
  | a :: acts => (if is_increase h a then 1 else 0) + increases h acts
  end.

(** The actions of a sequence dispatched one after the other. *)
Definition dispatch_all (acts : list value) (st : result (heap * value)) :
  result (heap * value) :=
  foldl (fun st a => dispatch a st) st acts.

(** [n] dispatches of [a] from a given state. *)
Definition repeat_dispatch (n : nat) (a : value) (h : heap) (s : value) :
  result (heap * value) :=
  Nat.iter n (dispatch a) (Ok (h, s)).

(** The text [n] additions of [1] append to a string. *)
Fixpoint ones (n : nat) : string :=
  match n with
  | O => ""
  | S n => (ones n ++ "1")%string
  end.

(** The Numbers that are not finite. *)
Definition not_finite (x : Num.number) : bool :=
  match x with
  | S754_nan | S754_infinity _ => true
  | _ => false
  end.

(** ** The reducer with logging

    The version of the reducer the README gives under "Add Logging to Our
    Reducer": the same function with calls of [console.log]. *)

(** What a computation has logged, one list of arguments per call of
    [console.log], and how it completed.  What is logged before a throw
    stays logged. *)
Record logged (A : Type) : Type := Logged {
  entries : list (list value);
  completion : result A
}.
Arguments Logged {A} entries completion.
Arguments entries {A} _.
Arguments completion {A} _.

#[export] Instance logged_ret : MRet logged := fun _ a => Logged [] (Ok a).
#[export] Instance logged_bind : MBind logged := fun _ _ k m =>
  match completion m with
  | Ok a => Logged (entries m ++ entries (k a)) (completion (k a))
  | TypeError => Logged (entries m) TypeError
  end.

(** [console.log(...args)]: the arguments, already evaluated, are recorded;
    what the console prints of them is the host's. *)
Definition console_log (args : list value) : logged unit := Logged [args] (Ok tt).

(** An expression that logs nothing. *)
Definition quiet {A : Type} (r : result A) : logged A := Logged [] r.

Definition counterReducer_logging (h : heap) (state action : value) :
  logged (heap * value) :=
  let '(h1, state) := default_state h state in
  _ ← console_log [action];
  t ← quiet (get h1 action "type");
  if strict_equals t INCREASE_COUNT then
    c ← quiet (get h1 state "clicks");
    _ ← console_log [VStr "Current state.clicks %s"; c];
    c ← quiet (get h1 state "clicks");
    u ← quiet (add_one h1 c);
    _ ← console_log [VStr "Updating state.clicks to %s"; u];
    c ← quiet (get h1 state "clicks");
    c' ← quiet (add_one h1 c);
    mret (alloc h1 (record c'))
  else
    c ← quiet (get h1 state "clicks");
    _ ← console_log [VStr "Initial state.clicks: %s"; c];
    mret (h1, state).

(** A state whose count is the string ["5"]. *)
Definition with_text : heap := actions ++ [record (VStr "5")].
Definition TEXT : value := VObj 3%nat.

(** A state with no [clicks]: [{ user: "ann" }]. *)
Definition without_clicks : heap := actions ++ [{[ "user"%string := VStr "ann" ]}].
Definition NOCLICKS : value := VObj 3%nat.

(** An "INCREASE_COUNT" action with a payload. *)
Definition with_payload : heap :=
  at_limit ++ [<["by"%string := VNum (Num.of_Z 10)]> (action "INCREASE_COUNT")].
Definition PAYLOAD : value := VObj 4%nat.

(** * Properties *)

(** ** The model at work *)

Example reducer_three : result_clicks (run 3 actions INIT INCREASE) = Some 3.
Proof. vm_compute. reflexivity. Qed.

Example reducer_text :
  result_view (counterReducer actions (VStr "x") INCREASE)
  = Some (inr (Some (record (VNum Num.nan)))).
Proof. vm_compute. reflexivity. Qed.

Example reducer_bigint : counterReducer with_bigint BIG INCREASE = TypeError.
Proof. vm_compute. reflexivity. Qed.

Example limit_plus_one : Num.add (Num.of_Z (2 ^ 53)) Num.one = Num.of_Z (2 ^ 53).
Proof. vm_compute. reflexivity. Qed.

(** ** Shifting and rounding *)

Section Shift.

Lemma iter_pos_nat {A : Type} (f : A -> A) (p : positive) (x : A) :
  SpecFloat.iter_pos f p x = Nat.iter (Pos.to_nat p) f x.
Proof.
  revert x. induction p as [p IH | p IH |]; intros x; cbn [SpecFloat.iter_pos].
  - rewrite !IH, Pos2Nat.inj_xI.
    replace (S (2 * Pos.to_nat p))%nat with (Pos.to_nat p + (Pos.to_nat p + 1))%nat by lia.
    rewrite !Nat.iter_add. reflexivity.
  - rewrite !IH, Pos2Nat.inj_xO.
    replace (2 * Pos.to_nat p)%nat with (Pos.to_nat p + Pos.to_nat p)%nat by lia.
    rewrite Nat.iter_add. reflexivity.
  - reflexivity.
Qed.

Lemma shr_1_nonneg (m : Z) (r s : bool) :
  0 <= m ->
  shr_1 (Build_shr_record m r s) = Build_shr_record (m / 2) (Z.odd m) (r || s).
Proof.
  intros Hm. rewrite <- Z.div2_div.
  destruct m as [|[p|p|]|]; simpl; try reflexivity; lia.
Qed.

Lemma sticky_succ (m k : Z) :
  0 <= k -> Z.testbit m k || sticky m k = sticky m (k + 1).
Proof.
  intros Hk. unfold sticky.
  rewrite Z.pow_add_r, Z.pow_1_r by lia.
  assert (H2 : 0 < 2 ^ k) by (apply Z.pow_pos_nonneg; lia).
  rewrite Z.rem_mul_r by lia.
  rewrite Z.testbit_odd, Z.shiftr_div_pow2 by lia.
  pose proof (Z.mod_pos_bound m (2 ^ k) H2) as Hb.
  pose proof (Zmod_odd (m / 2 ^ k)) as Ho.
  destruct (Z.odd (m / 2 ^ k)); rewrite Ho; simpl.
  - symmetry. apply negb_true_iff, Z.eqb_neq. lia.
  - f_equal. f_equal. lia.
Qed.

Lemma shr_iter (k : nat) (m : Z) (r s : bool) :
  0 <= m ->
  Nat.iter (S k) shr_1 (Build_shr_record m r s)
  = Build_shr_record (m / 2 ^ (Z.of_nat k + 1)) (Z.testbit m (Z.of_nat k))
      (sticky m (Z.of_nat k) || (r || s)).
Proof.
  intros Hm. induction k as [|k IH].
  - rewrite Nat.iter_succ. change (Nat.iter 0 shr_1 ?x) with x.
    rewrite shr_1_nonneg by assumption.
    unfold sticky. change (Z.of_nat 0) with 0. change (2 ^ (0 + 1)) with 2.
    change (2 ^ 0) with 1. rewrite Z.mod_1_r, Z.bit0_odd. reflexivity.
  - rewrite Nat.iter_succ, IH.
    assert (H2 : 0 < 2 ^ (Z.of_nat k + 1)) by (apply Z.pow_pos_nonneg; lia).
    rewrite shr_1_nonneg by (apply Z.div_pos; lia).
    rewrite Z.div_div by lia.
    replace (2 ^ (Z.of_nat k + 1) * 2) with (2 ^ (Z.of_nat (S k) + 1))
      by (rewrite Nat2Z.inj_succ, <- Z.add_1_r, (Z.pow_add_r 2 (_ + 1) 1) by lia; reflexivity).
    f_equal.
    + rewrite Nat2Z.inj_succ, <- Z.add_1_r.
      rewrite Z.testbit_odd, Z.shiftr_div_pow2 by lia. reflexivity.
    + rewrite orb_assoc, sticky_succ by lia.
      rewrite Nat2Z.inj_succ, <- Z.add_1_r. reflexivity.
Qed.

(** [shr] as arithmetic: [n] bits dropped, the last one kept as the round
    bit and the others summed up in the sticky bit. *)
Lemma shr_exact_spec (m e n : Z) :
  0 <= m -> 0 < n ->
  shr (Build_shr_record m false false) e n
  = (Build_shr_record (m / 2 ^ n) (Z.testbit m (n - 1)) (sticky m (n - 1)), e + n).
Proof.
  intros Hm Hn. destruct n as [|p|p]; try lia.
  unfold shr. rewrite iter_pos_nat.
  destruct (Pos.to_nat p) as [|k] eqn:Hk; [lia|].
  rewrite shr_iter by assumption.
  replace (Z.of_nat k) with (Z.pos p - 1) by lia.
  rewrite orb_false_r. repeat f_equal. lia.
Qed.

Lemma digits2_log2 (p : positive) :
  Z.pos (digits2_pos p) = Z.log2 (Z.pos p) + 1.
Proof.
  induction p as [p IH | p IH |]; simpl digits2_pos.
  - rewrite Pos2Z.inj_succ, IH.
    change (Z.pos p~1) with (2 * Z.pos p + 1). rewrite Z.log2_succ_double by lia. lia.
  - rewrite Pos2Z.inj_succ, IH.
    change (Z.pos p~0) with (2 * Z.pos p). rewrite Z.log2_double by lia. lia.
  - reflexivity.
Qed.

Lemma digits2_bounds (p : positive) :
  2 ^ (Z.pos (digits2_pos p) - 1) <= Z.pos p < 2 ^ Z.pos (digits2_pos p).
Proof.
  rewrite digits2_log2. pose proof (Z.log2_spec (Z.pos p) ltac:(lia)) as H.
  replace (Z.log2 (Z.pos p) + 1 - 1) with (Z.log2 (Z.pos p)) by lia.
  replace (Z.log2 (Z.pos p) + 1) with (Z.succ (Z.log2 (Z.pos p))) by lia. exact H.
Qed.

Lemma digits2_unique (p : positive) (d : Z) :
  2 ^ (d - 1) <= Z.pos p < 2 ^ d -> Z.pos (digits2_pos p) = d.
Proof.
  intros H. rewrite digits2_log2.
  assert (0 < d). { destruct (Z.le_gt_cases d 0) as [Hd|]; [|lia].
    assert (2 ^ d <= 2 ^ 0) by (apply Z.pow_le_mono_r; lia). simpl in *. lia. }
  rewrite (Z.log2_unique (Z.pos p) (d - 1)); lia || (replace (Z.succ (d-1)) with d by lia; lia).
Qed.

End Shift.

Lemma pow2_pos (k : Z) : 0 <= k -> 0 < 2 ^ k.
Proof. intros. apply Z.pow_pos_nonneg; lia. Qed.

Lemma fexp_normal (d : Z) : -1021 <= d -> fexp 53 1024 d = d - 53.
Proof. intros H. unfold fexp, emin. lia. Qed.

Lemma shr_fexp_53 (q e : Z) :
  2 ^ 52 <= q < 2 ^ 53 -> -1074 <= e ->
  shr_fexp 53 1024 q e loc_Exact = (Build_shr_record q false false, e).
Proof.
  intros Hq He. unfold shr_fexp.
  destruct q as [|p|p]; try lia.
  cbn [Zdigits2]. rewrite (digits2_unique p 53) by (simpl; lia).
  rewrite fexp_normal by lia.
  replace (53 + e - 53 - e) with 0 by lia. reflexivity.
Qed.

Lemma shr_fexp_54 (e : Z) :
  -1074 <= e ->
  shr_fexp 53 1024 (2 ^ 53) e loc_Exact = (Build_shr_record (2 ^ 52) false false, e + 1).
Proof.
  intros He. unfold shr_fexp.
  change (Zdigits2 (2 ^ 53)) with 54.
  rewrite fexp_normal by lia.
  replace (54 + e - 53 - e) with 1 by lia. reflexivity.
Qed.

Lemma round_at (s : bool) (p : positive) (k : Z) :
  1 <= k -> 2 ^ (k + 52) <= Z.pos p < 2 ^ (k + 53) ->
  binary_round 53 1024 s p (-52)
  = round_result s (Z.pos p / 2 ^ k) k (Z.testbit (Z.pos p) (k - 1)) (sticky (Z.pos p) (k - 1)).
Proof.
  intros Hk Hp.
  assert (Hd : Z.pos (digits2_pos p) = k + 53).
  { apply digits2_unique. replace (k + 53 - 1) with (k + 52) by lia. exact Hp. }
  unfold binary_round. rewrite Hd, fexp_normal by lia.
  unfold shl_align. replace (k + 53 + -52 - 53 - -52) with k by lia.
  destruct k as [|kp|kp] eqn:Ek; try lia. rewrite <- Ek in *.
  unfold binary_round_aux.
  unfold shr_fexp at 1. cbn [Zdigits2 shr_record_of_loc]. rewrite Hd, fexp_normal by lia.
  replace (k + 53 + -52 - 53 - -52) with k by lia.
  rewrite shr_exact_spec by lia.
  cbn [shr_m].
  set (q := Z.pos p / 2 ^ k).
  set (r := Z.testbit (Z.pos p) (k - 1)).
  set (t := sticky (Z.pos p) (k - 1)).
  assert (Hq : 2 ^ 52 <= q < 2 ^ 53).
  { unfold q. pose proof (pow2_pos k ltac:(lia)).
    split.
    - apply Z.div_le_lower_bound; [lia|]. rewrite <- Z.pow_add_r by lia. lia.
    - apply Z.div_lt_upper_bound; [lia|]. rewrite <- Z.pow_add_r by lia. lia. }
  unfold round_result.
  set (q' := round_nearest_even q _).
  assert (Hq' : q' = q \/ q' = q + 1).
  { unfold q', round_nearest_even. destruct r, t; simpl; auto. destruct (Z.even q); auto. }
  replace (-52 + k) with (k - 52) by lia.
  destruct (Z.eqb_spec q' (2 ^ 53)) as [E|E].
  - rewrite E, shr_fexp_54 by lia. cbn [shr_m].
    replace (k - 52 + 1) with (k - 51) by lia. reflexivity.
  - rewrite shr_fexp_53 by lia. cbn [shr_m].
    destruct q' as [|q''|q'']; try lia. reflexivity.
Qed.

Lemma valid_finite (s : bool) (m : positive) (e : Z) :
  Num.valid (S754_finite s m e) = true <->
  e <= 971 /\ Z.max (Z.pos (digits2_pos m) + e - 53) (-1074) = e.
Proof.
  unfold Num.valid, valid_binary, bounded, canonical_mantissa, fexp, emin, Num.prec, Num.emax.
  rewrite andb_true_iff, Z.eqb_eq, Z.leb_le. change (3 - 1024 - 53) with (-1074).
  change (1024 - 53) with 971. tauto.
Qed.

(** An integer-valued double has a full mantissa: it is [m * 2 ^ e] with 53
    bits in [m] and [e] from [-52] on. *)
Lemma to_Z_finite_inv (s : bool) (m : positive) (e n : Z) :
  Num.to_Z (S754_finite s m e) = Some n ->
  -52 <= e <= 971 /\ 2 ^ 52 <= Z.pos m < 2 ^ 53
  /\ n * 2 ^ 52 = Num.signed s (Z.pos m * 2 ^ (e + 52)).
Proof.
  unfold Num.to_Z. destruct (Num.valid _) eqn:Hv; [|discriminate]. cbn [negb].
  apply valid_finite in Hv. destruct Hv as [He Hc].
  pose proof (digits2_bounds m) as Hb. set (d := Z.pos (digits2_pos m)) in *.
  assert (Hd : 0 < d) by (unfold d; lia).
  destruct (Z.leb_spec 0 e) as [H0|H0].
  - intros [= <-]. assert (d = 53) by lia. subst d. rewrite H in Hb.
    repeat split; try lia.
    rewrite Z.pow_add_r by lia. destruct s; simpl Num.signed; lia.
  - destruct (Z.eqb_spec (Z.pos m mod 2 ^ (- e)) 0) as [Hm|Hm]; [|discriminate].
    intros [= <-].
    assert (Hp : 0 < 2 ^ (- e)) by (apply pow2_pos; lia).
    pose proof (Z.div_mod (Z.pos m) (2 ^ (- e)) ltac:(lia)) as Hdm. rewrite Hm in Hdm.
    assert (Hle : 2 ^ (- e) <= Z.pos m).
    { assert (0 < Z.pos m / 2 ^ (- e)) by nia. nia. }
    assert (Hd53 : d <= 53) by lia.
    assert (He52 : -52 <= e).
    { destruct (Z.le_gt_cases (-52) e); [assumption|].
      assert (2 ^ 53 <= 2 ^ (- e)) by (apply Z.pow_le_mono_r; lia).
      assert (2 ^ d <= 2 ^ 53) by (apply Z.pow_le_mono_r; lia). lia. }
    assert (d = 53) by lia. subst d. rewrite H in Hb.
    repeat split; try lia.
    assert (Hs : 2 ^ 52 = 2 ^ (- e) * 2 ^ (e + 52)).
    { rewrite <- Z.pow_add_r by lia. f_equal. lia. }
    set (c := Z.pos m / 2 ^ (- e)) in *.
    assert (Hc' : c * 2 ^ 52 = Z.pos m * 2 ^ (e + 52)).
    { rewrite Hs, Hdm at 1. ring. }
    destruct s; simpl Num.signed; lia.
Qed.

Lemma to_Z_finite (s : bool) (q e v : Z) :
  2 ^ 52 <= q < 2 ^ 53 -> -52 <= e <= 971 ->
  v * 2 ^ 52 = q * 2 ^ (e + 52) ->
  Num.to_Z (S754_finite s (Z.to_pos q) e) = Some (Num.signed s v).
Proof.
  intros Hq He Hv. destruct q as [|m|m]; try lia. cbn [Z.to_pos].
  unfold Num.to_Z.
  assert (Hvalid : Num.valid (S754_finite s m e) = true).
  { apply valid_finite. rewrite (digits2_unique m 53) by (simpl; lia). lia. }
  rewrite Hvalid. cbn [negb].
  destruct (Z.leb_spec 0 e) as [H0|H0].
  - do 2 f_equal. rewrite Z.pow_add_r in Hv by lia. lia.
  - assert (Hp : 0 < 2 ^ (- e)) by (apply pow2_pos; lia).
    assert (Hp' : 0 < 2 ^ (e + 52)) by (apply pow2_pos; lia).
    assert (Hs : 2 ^ 52 = 2 ^ (- e) * 2 ^ (e + 52)).
    { rewrite <- Z.pow_add_r by lia. f_equal. lia. }
    assert (Hm : Z.pos m = v * 2 ^ (- e)).
    { rewrite Hs in Hv. nia. }
    rewrite Hm, Z.mod_mul, Z.div_mul by lia. reflexivity.
Qed.

Lemma shift_left_pos (m d : positive) :
  Z.pos (Pos.iter xO m d) = Z.pos m * 2 ^ Z.pos d.
Proof.
  change (Pos.iter xO m d) with (Zpower.shift_pos d m).
  rewrite Zpower.shift_pos_correct. change (Z.pow_pos 2 d) with (2 ^ Z.pos d). lia.
Qed.

(** Adding [1] to an integer [n]: the operands are aligned at exponent
    [-52], summed exactly, and the sum is rounded. *)
Lemma add_one_align (x : Num.number) (n : Z) :
  Num.to_Z x = Some n ->
  Num.add x Num.one = binary_normalize 53 1024 ((n + 1) * 2 ^ 52) (-52) false.
Proof.
  intros Hx. destruct x as [s|s| |s m e]; try discriminate.
  - injection Hx as <-. reflexivity.
  - destruct (to_Z_finite_inv _ _ _ _ Hx) as (He & Hm & Hn).
    unfold Num.add, Num.one, SFadd, Num.prec, Num.emax.
    rewrite Z.min_r by lia.
    f_equal.
    rewrite Z.mul_add_distr_r, Hn. f_equal.
    unfold shl_align.
    destruct (-52 - e) as [|d|d] eqn:Ed; try lia.
    + replace (e + 52) with 0 by lia. cbn [fst]. destruct s; simpl; lia.
    + cbn [fst]. rewrite shift_left_pos. replace (Z.pos d) with (e + 52) by lia.
      destruct s; reflexivity.
Qed.

Lemma normalize_at (s : bool) (a k : Z) :
  1 <= k -> 2 ^ k <= a < 2 ^ (k + 1) ->
  binary_normalize 53 1024 (Num.signed s a * 2 ^ 52) (-52) false
  = round_result s (a * 2 ^ 52 / 2 ^ k) k
      (Z.testbit (a * 2 ^ 52) (k - 1)) (sticky (a * 2 ^ 52) (k - 1)).
Proof.
  intros Hk Ha.
  assert (H0 : 0 < 2 ^ k) by (apply pow2_pos; lia).
  assert (Hb : 2 ^ (k + 52) <= a * 2 ^ 52 < 2 ^ (k + 53)).
  { rewrite !Z.pow_add_r in * by lia. lia. }
  destruct (a * 2 ^ 52) as [|p|p] eqn:Ep; try lia.
  replace (Num.signed s a * 2 ^ 52) with (Num.signed s (Z.pos p))
    by (rewrite <- Ep; destruct s; simpl; lia).
  destruct s; cbn [Num.signed Z.opp binary_normalize]; apply round_at; assumption.
Qed.

Lemma sticky_false_iff (m k : Z) : sticky m k = false <-> m mod 2 ^ k = 0.
Proof. unfold sticky. rewrite negb_false_iff. apply Z.eqb_eq. Qed.

(** Nothing is lost when the bits to drop are all zero. *)
Lemma normalize_exact (s : bool) (a k : Z) :
  1 <= k <= 1023 -> 2 ^ k <= a < 2 ^ (k + 1) -> (a * 2 ^ 52) mod 2 ^ k = 0 ->
  Num.to_Z (binary_normalize 53 1024 (Num.signed s a * 2 ^ 52) (-52) false)
  = Some (Num.signed s a).
Proof.
  intros Hk Ha Hm. rewrite (normalize_at s a k) by lia.
  assert (H0 : 0 < 2 ^ k) by (apply pow2_pos; lia).
  apply sticky_false_iff in Hm as Hs.
  replace k with (k - 1 + 1) in Hs at 1 by lia.
  rewrite <- sticky_succ in Hs by lia.
  apply orb_false_elim in Hs as [-> ->].
  unfold round_result. cbn [loc_of_shr_record round_nearest_even].
  set (q := a * 2 ^ 52 / 2 ^ k).
  assert (Hq : a * 2 ^ 52 = q * 2 ^ k).
  { unfold q. pose proof (Z.div_mod (a * 2 ^ 52) (2 ^ k) ltac:(lia)). lia. }
  assert (Hq' : 2 ^ 52 <= q < 2 ^ 53).
  { rewrite Z.pow_add_r in Ha by lia. change (2 ^ 53) with (2 * 2 ^ 52).
    change (2 ^ 1) with 2 in Ha. nia. }
  destruct (Z.eqb_spec q (2 ^ 53)); [lia|].
  destruct (Z.leb_spec (k - 52) 971); [|lia].
  apply to_Z_finite; try lia.
  replace (k - 52 + 52) with k by lia. lia.
Qed.

(** In the safe range, [n + 1] is computed exactly. *)
Lemma add_one_exact (x : Num.number) (n : Z) :
  Num.to_Z x = Some n -> - 2 ^ 53 <= n < 2 ^ 53 ->
  Num.to_Z (Num.add x Num.one) = Some (n + 1).
Proof.
  intros Hx Hn. rewrite (add_one_align x n Hx).
  set (z := n + 1).
  destruct (Z.eq_dec z 0) as [->|Hz]; [reflexivity|].
  destruct (Z.eq_dec z 1) as [->|Hz1]; [reflexivity|].
  destruct (Z.eq_dec z (-1)) as [->|Hz2]; [reflexivity|].
  set (s := z <? 0). set (a := Z.abs z).
  assert (Hza : z = Num.signed s a).
  { unfold s, a. destruct (Z.ltb_spec z 0); simpl; lia. }
  assert (Ha : 2 <= a <= 2 ^ 53) by (unfold a, z; lia).
  rewrite Hza.
  pose proof (Z.log2_spec a ltac:(lia)) as Hl.
  set (k := Z.log2 a) in *.
  assert (Hk1 : 1 <= k).
  { destruct (Z.le_gt_cases 1 k); [assumption|].
    assert (2 ^ Z.succ k <= 2 ^ 1) by (apply Z.pow_le_mono_r; lia). simpl in *; lia. }
  assert (Hk2 : k <= 53).
  { destruct (Z.le_gt_cases k 53); [assumption|].
    assert (2 ^ 54 <= 2 ^ k) by (apply Z.pow_le_mono_r; lia). simpl in *; lia. }
  apply (normalize_exact s a k); [lia | lia |].
  destruct (Z.eq_dec k 53) as [Ek|Ek].
  - assert (a = 2 ^ 53) by (rewrite Ek in Hl; lia).
    rewrite H, Ek. reflexivity.
  - replace (2 ^ 52) with (2 ^ (52 - k) * 2 ^ k)
      by (rewrite <- Z.pow_add_r by lia; f_equal; lia).
    rewrite Z.mul_assoc. apply Z.mod_mul. apply Z.pow_nonzero; lia.
Qed.

Lemma split_bits (a i q r : Z) :
  0 <= i -> a = q * 2 ^ i + r -> 0 <= r < 2 ^ i ->
  a / 2 ^ i = q /\ a mod 2 ^ i = r /\ Z.testbit a i = Z.odd q.
Proof.
  intros Hi Ha Hr.
  assert (Hq : a / 2 ^ i = q) by (symmetry; apply (Z.div_unique a (2 ^ i) q r); lia).
  repeat split; [exact Hq | |].
  - symmetry. apply (Z.mod_unique a (2 ^ i) q r); lia.
  - rewrite Z.testbit_odd, Z.shiftr_div_pow2, Hq by lia. reflexivity.
Qed.

Lemma normalize_big (s : bool) (a j : Z) :
  1 <= j -> 2 ^ (j + 52) <= a < 2 ^ (j + 53) ->
  binary_normalize 53 1024 (Num.signed s a * 2 ^ 52) (-52) false
  = round_result s (a / 2 ^ j) (j + 52) (Z.testbit a (j - 1)) (sticky a (j - 1)).
Proof.
  intros Hj Ha.
  rewrite (normalize_at s a (j + 52)) by (replace (j + 52 + 1) with (j + 53) by lia; lia).
  assert (H0 : 0 < 2 ^ j) by (apply pow2_pos; lia).
  assert (H1 : 0 < 2 ^ (j - 1)) by (apply pow2_pos; lia).
  f_equal.
  - rewrite (Z.add_comm j 52), Z.pow_add_r, Z.mul_comm by lia.
    rewrite Z.div_mul_cancel_l by lia. reflexivity.
  - replace (j + 52 - 1) with (52 + (j - 1)) by lia.
    rewrite Z.mul_pow2_bits_add by lia. reflexivity.
  - unfold sticky. replace (j + 52 - 1) with (j - 1 + 52) by lia.
    rewrite Z.pow_add_r, Z.mul_mod_distr_r by lia.
    f_equal. apply eq_true_iff_eq. rewrite !Z.eqb_eq. lia.
Qed.

(** Past the safe range the sum is rounded: [n + 1] lies halfway between
    two doubles (ties go to the even mantissa) or nearer to [n]. *)
Lemma add_one_rounded (x : Num.number) (n : Z) :
  Num.to_Z x = Some n -> n < - 2 ^ 53 \/ 2 ^ 53 <= n ->
  exists n', Num.to_Z (Num.add x Num.one) = Some n' /\ (n' = n \/ n' = n + 2).
Proof.
  intros Hx Hn. rewrite (add_one_align x n Hx).
  destruct x as [s|s| |s m e]; try discriminate.
  { injection Hx as <-. simpl in Hn. lia. }
  destruct (to_Z_finite_inv _ _ _ _ Hx) as (He & Hm & Hv). clear Hx.
  assert (He1 : 1 <= e).
  { destruct (Z.le_gt_cases 1 e); [assumption|].
    assert (0 < 2 ^ (e + 52) <= 2 ^ 52)
      by (split; [apply pow2_pos | apply Z.pow_le_mono_r]; lia).
    destruct s; simpl in Hv; nia. }
  rewrite Z.pow_add_r in Hv by lia.
  assert (HE : exists E1, 2 ^ e = 2 * E1 /\ E1 = 2 ^ (e - 1) /\ 0 < E1).
  { exists (2 ^ (e - 1)). repeat split; [|apply pow2_pos; lia].
    replace e with (e - 1 + 1) at 1 by lia. rewrite Z.pow_add_r by lia. lia. }
  destruct HE as (E1 & HE & HE1 & HE1pos).
  set (M := Z.pos m) in *.
  assert (Hn' : n = Num.signed s (M * 2 ^ e)) by (destruct s; simpl in *; lia).
  clear Hv.
  assert (P53 : 2 ^ (e + 53) = 2 ^ 53 * 2 ^ e) by (rewrite Z.pow_add_r by lia; lia).
  assert (P52 : 2 ^ (e + 52) = 2 ^ 52 * 2 ^ e) by (rewrite Z.pow_add_r by lia; lia).
  destruct s; simpl in Hn'.
  - (* negative *)
    replace (n + 1) with (Num.signed true (M * 2 ^ e - 1)) by (simpl; lia).
    destruct (Z.eq_dec M (2 ^ 52)) as [EM|EM].
    + (* the mantissa loses a bit *)
      assert (He2 : 2 <= e).
      { destruct (Z.eq_dec e 1) as [->|]; [|lia]. rewrite EM in Hn'. simpl in *. lia. }
      assert (HE2 : exists E2, E1 = 2 * E2 /\ E2 = 2 ^ (e - 2) /\ 0 < E2).
      { exists (2 ^ (e - 2)). repeat split; [|apply pow2_pos; lia].
        rewrite HE1. replace (e - 1) with (e - 2 + 1) at 1 by lia.
        rewrite Z.pow_add_r by lia. lia. }
      destruct HE2 as (E2 & HE2 & HE2' & HE2pos).
      rewrite (normalize_big true _ (e - 1)).
      2: lia.
      2: { replace (e - 1 + 52) with (e + 51) by lia.
           replace (e - 1 + 53) with (e + 52) by lia.
           assert (2 ^ (e + 51) = 2 ^ 51 * 2 ^ e) by (rewrite Z.pow_add_r by lia; lia).
           rewrite P52, H, EM. lia. }
      destruct (split_bits (M * 2 ^ e - 1) (e - 1) (2 ^ 53 - 1) (E1 - 1)) as (-> & _ & _);
        [lia | rewrite EM, HE, <- HE1; lia | rewrite <- HE1; lia |].
      destruct (split_bits (M * 2 ^ e - 1) (e - 1 - 1) (2 ^ 54 - 1) (E2 - 1)) as (_ & Hmod & ->);
        [lia | | | ].
      { replace (e - 1 - 1) with (e - 2) by lia. rewrite EM, HE, HE2, <- HE2'. lia. }
      { replace (e - 1 - 1) with (e - 2) by lia. rewrite <- HE2'. lia. }
      exists n. split; [|auto].
      unfold round_result.
      assert (Hq : round_nearest_even (2 ^ 53 - 1)
        (loc_of_shr_record (Build_shr_record (2 ^ 53 - 1) (Z.odd (2 ^ 54 - 1))
           (sticky (M * 2 ^ e - 1) (e - 1 - 1)))) = 2 ^ 53).
      { destruct (sticky _ _); reflexivity. }
      rewrite Hq. change (2 ^ 53 =? 2 ^ 53) with true. cbn iota.
      destruct (Z.leb_spec (e - 1 + 52 - 51) 971); [|lia].
      rewrite Hn'. replace (- (M * 2 ^ e)) with (Num.signed true (M * 2 ^ e)) by reflexivity.
      apply to_Z_finite; try (simpl; lia).
      replace (e - 1 + 52 - 51 + 52) with (e + 52) by lia. rewrite EM, P52. lia.
    + rewrite (normalize_big true _ e); [|lia|rewrite P52, P53; nia].
      destruct (split_bits (M * 2 ^ e - 1) e (M - 1) (2 ^ e - 1)) as (-> & _ & _);
        [lia | lia | lia |].
      destruct (split_bits (M * 2 ^ e - 1) (e - 1) (2 * M - 1) (E1 - 1)) as (_ & Hmod & ->);
        [lia | rewrite HE, <- HE1; lia | rewrite <- HE1; lia |].
      replace (Z.odd (2 * M - 1)) with true
        by (symmetry; rewrite <- Z.negb_even, Z.even_sub, Z.even_mul; reflexivity).
      unfold round_result, sticky. rewrite Hmod.
      destruct (Z.eq_dec e 1) as [Ee|Ee].
      * assert (E1 = 1) by (rewrite HE1, Ee; reflexivity).
        replace (E1 - 1 =? 0) with true by (symmetry; apply Z.eqb_eq; lia).
        cbn [negb loc_of_shr_record round_nearest_even].
        set (q' := if Z.even (M - 1) then M - 1 else M - 1 + 1).
        assert (Hq' : q' = M - 1 \/ q' = M) by (unfold q'; destruct (Z.even _); lia).
        destruct (Z.eqb_spec q' (2 ^ 53)); [lia|].
        destruct (Z.leb_spec (e + 52 - 52) 971); [|lia].
        exists (Num.signed true (2 * q')). split.
        -- apply to_Z_finite; try lia.
           replace (e + 52 - 52 + 52) with (e + 52) by lia. rewrite P52, Ee. lia.
        -- rewrite Hn', Ee. simpl. lia.
      * replace (E1 - 1 =? 0) with false.
        2:{ symmetry. apply Z.eqb_neq.
            assert (2 ^ 1 <= 2 ^ (e - 1)) by (apply Z.pow_le_mono_r; lia). simpl in *. lia. }
        cbn [negb loc_of_shr_record round_nearest_even].
        replace (M - 1 + 1) with M by lia.
        destruct (Z.eqb_spec M (2 ^ 53)); [lia|].
        destruct (Z.leb_spec (e + 52 - 52) 971); [|lia].
        exists n. split; [|auto]. rewrite Hn'.
        replace (- (M * 2 ^ e)) with (Num.signed true (M * 2 ^ e)) by reflexivity.
        apply to_Z_finite; try lia.
        replace (e + 52 - 52 + 52) with (e + 52) by lia. rewrite P52. lia.
  - (* positive *)
    replace (n + 1) with (Num.signed false (M * 2 ^ e + 1)) by (simpl; lia).
    rewrite (normalize_big false _ e); [|lia|rewrite P52, P53; nia].
    destruct (split_bits (M * 2 ^ e + 1) e M 1) as (-> & _ & _); [lia | lia | lia |].
    unfold round_result, sticky.
    destruct (Z.eq_dec e 1) as [Ee|Ee].
    + assert (E1 = 1) by (rewrite HE1, Ee; reflexivity).
      replace (e - 1) with 0 by lia. rewrite Z.bit0_odd.
      replace (Z.odd (M * 2 ^ e + 1)) with true
        by (symmetry; rewrite <- Z.negb_even, Z.even_add, Z.even_mul, Ee, orb_true_r; reflexivity).
      change (2 ^ 0) with 1. rewrite Z.mod_1_r.
      cbn [negb Z.eqb loc_of_shr_record round_nearest_even].
      set (q' := if Z.even M then M else M + 1).
      assert (Hq' : q' = M \/ q' = M + 1) by (unfold q'; destruct (Z.even _); lia).
      destruct (Z.eqb_spec q' (2 ^ 53)) as [E53|E53].
      * exists (Num.signed false (2 ^ 54)). split.
        -- rewrite Ee. apply to_Z_finite; simpl; lia.
        -- rewrite Hn', Ee. simpl. lia.
      * destruct (Z.leb_spec (e + 52 - 52) 971); [|lia].
        exists (Num.signed false (2 * q')). split.
        -- apply to_Z_finite; try lia.
           replace (e + 52 - 52 + 52) with (e + 52) by lia. rewrite P52, Ee. lia.
        -- rewrite Hn', Ee. simpl. lia.
    + destruct (split_bits (M * 2 ^ e + 1) (e - 1) (2 * M) 1) as (_ & Hmod & ->);
        [lia | rewrite HE, <- HE1; lia | |].
      { assert (2 ^ 1 <= 2 ^ (e - 1)) by (apply Z.pow_le_mono_r; lia). simpl in *. lia. }
      replace (Z.odd (2 * M)) with false
        by (symmetry; rewrite <- Z.negb_even, Z.even_mul; reflexivity).
      rewrite Hmod. cbn [negb Z.eqb loc_of_shr_record round_nearest_even].
      destruct (Z.eqb_spec M (2 ^ 53)); [lia|].
      destruct (Z.leb_spec (e + 52 - 52) 971); [|lia].
      exists n. split; [|auto]. rewrite Hn'.
      replace (M * 2 ^ e) with (Num.signed false (M * 2 ^ e)) by reflexivity.
      apply to_Z_finite; try lia.
      replace (e + 52 - 52 + 52) with (e + 52) by lia. rewrite P52. lia.
Qed.

(** At [2 ^ 53] the count stays. *)
Lemma add_one_limit (x : Num.number) :
  Num.to_Z x = Some Num.limit -> Num.to_Z (Num.add x Num.one) = Some Num.limit.
Proof. intros Hx. rewrite (add_one_align x _ Hx). reflexivity. Qed.

(** ** The reducer, branch by branch *)

Section Reducer.

Implicit Types (h : heap) (s a t c v : value) (o : obj).

Lemma strict_equals_INCREASE t :
  strict_equals t INCREASE_COUNT = true <-> t = INCREASE_COUNT.
Proof.
  unfold INCREASE_COUNT. destruct t; simpl; try (split; [discriminate|discriminate]).
  rewrite String.eqb_eq. split; congruence.
Qed.

Lemma strict_equals_other t :
  t <> INCREASE_COUNT -> strict_equals t INCREASE_COUNT = false.
Proof.
  intros Ht. apply not_true_is_false. rewrite strict_equals_INCREASE. exact Ht.
Qed.

(** A new record is no action: reading [type] is not affected. *)
Lemma get_type_alloc h c a :
  get (h ++ [record c]) a "type" = get h a "type".
Proof.
  destruct a as [| | | | | | |l]; try reflexivity. simpl.
  destruct (h !! l) as [o|] eqn:Hl.
  - rewrite (lookup_app_l_Some _ _ _ _ Hl). reflexivity.
  - apply lookup_ge_None in Hl. rewrite lookup_app_r by lia.
    destruct (l - length h)%nat as [|i]; reflexivity.
Qed.

Lemma lookup_alloc h o : (h ++ [o]) !! length h = Some o.
Proof. rewrite lookup_app_r, Nat.sub_diag by lia. reflexivity. Qed.

Lemma clicks_alloc h c : clicks (h ++ [record c]) (VObj (length h)) = Some c.
Proof. unfold clicks. rewrite lookup_alloc. reflexivity. Qed.

Lemma clicks_get h s c : clicks h s = Some c -> s <> VUndefined /\ get h s "clicks" = Ok c.
Proof.
  destruct s as [| | | | | | |l]; try discriminate. unfold clicks, get.
  destruct (h !! l) as [o|]; [|discriminate]. cbn. intros ->. split; [discriminate|reflexivity].
Qed.

Lemma clicks_int_inv h s n :
  clicks_int h s = Some n -> exists x, clicks h s = Some (VNum x) /\ Num.to_Z x = Some n.
Proof.
  unfold clicks_int. destruct (clicks h s) as [[| | |x| | | |]|]; try discriminate. eauto.
Qed.

Lemma default_state_defined h s : s <> VUndefined -> default_state h s = (h, s).
Proof. destruct s; congruence || reflexivity. Qed.

(** The three ways through the reducer. *)
Lemma reducer_seed h a t :
  get h a "type" = Ok t -> t <> INCREASE_COUNT ->
  counterReducer h VUndefined a = Ok (alloc h (record (VNum Num.zero))).
Proof.
  intros Ha Ht. unfold counterReducer. cbn [default_state alloc].
  rewrite get_type_alloc, Ha. cbn. rewrite strict_equals_other by exact Ht. reflexivity.
Qed.

Lemma reducer_default h s a t :
  s <> VUndefined -> get h a "type" = Ok t -> t <> INCREASE_COUNT ->
  counterReducer h s a = Ok (h, s).
Proof.
  intros Hs Ha Ht. unfold counterReducer. rewrite default_state_defined by exact Hs.
  rewrite Ha. cbn. rewrite strict_equals_other by exact Ht. reflexivity.
Qed.

Lemma reducer_add h s a c c' :
  s <> VUndefined -> get h s "clicks" = Ok c -> add_one h c = Ok c' ->
  get h a "type" = Ok INCREASE_COUNT ->
  counterReducer h s a = Ok (alloc h (record c')).
Proof.
  intros Hs Hc Hc' Ha. unfold counterReducer. rewrite default_state_defined by exact Hs.
  rewrite Ha. cbn. rewrite Hc. cbn. rewrite Hc'. reflexivity.
Qed.

Lemma reducer_increase h s a x :
  clicks h s = Some (VNum x) -> get h a "type" = Ok INCREASE_COUNT ->
  counterReducer h s a = Ok (alloc h (record (VNum (Num.add x Num.one)))).
Proof.
  intros Hc Ha. apply clicks_get in Hc as [Hs Hc].
  apply (reducer_add h s a (VNum x)); auto.
Qed.

Lemma result_clicks_alloc h x :
  result_clicks (Ok (alloc h (record (VNum x)))) = Num.to_Z x.
Proof. unfold result_clicks, alloc, clicks_int. rewrite clicks_alloc. reflexivity. Qed.

(** The reducer only allocates: the heap it returns extends the one it
    was given. *)
Lemma reducer_extends h s a h' v :
  counterReducer h s a = Ok (h', v) -> h `prefix_of` h'.
Proof.
  unfold counterReducer.
  assert (Hd : h `prefix_of` (default_state h s).1).
  { destruct s; simpl; try reflexivity. apply prefix_app_r. reflexivity. }
  destruct (default_state h s) as [h1 s1]. simpl in Hd.
  destruct (get h1 a "type") as [t|]; [|discriminate]. cbn.
  destruct (strict_equals t INCREASE_COUNT).
  - destruct (get h1 s1 "clicks") as [c|]; [|discriminate]. cbn.
    destruct (add_one h1 c) as [c'|]; [|discriminate]. cbn.
    intros [= <- <-]. etransitivity; [exact Hd|]. apply prefix_app_r. reflexivity.
  - intros [= <- <-]. exact Hd.
Qed.

Lemma clicks_prefix h h1 s c :
  h `prefix_of` h1 -> clicks h s = Some c -> clicks h1 s = Some c.
Proof.
  intros Hp. destruct s as [| | | | | | |l]; try discriminate. unfold clicks.
  destruct (h !! l) as [o|] eqn:Hl; [|discriminate].
  rewrite (prefix_lookup_Some _ _ _ _ Hl Hp). auto.
Qed.

Lemma clicks_int_prefix h h1 s n :
  h `prefix_of` h1 -> clicks_int h s = Some n -> clicks_int h1 s = Some n.
Proof.
  intros Hp Hn. apply clicks_int_inv in Hn as (x & Hc & Hx).
  unfold clicks_int. rewrite (clicks_prefix _ _ _ _ Hp Hc). exact Hx.
Qed.

End Reducer.

Section Steps.

Implicit Types (h : heap) (s a t c v : value) (o : obj).

Lemma get_readable h a k :
  a <> VUndefined -> a <> VNull -> exists t, get h a k = Ok t.
Proof.
  intros Hu Hn. destruct a as [| | | | | | |l]; try congruence; simpl; eauto.
  destruct (h !! l); eauto.
Qed.

Lemma get_unreadable h a k :
  a = VUndefined \/ a = VNull -> get h a k = TypeError.
Proof. intros [-> | ->]; reflexivity. Qed.

(** Every successful call took one of the two branches. *)
Lemma reducer_inv h s a h' v :
  counterReducer h s a = Ok (h', v) ->
  exists t, get h a "type" = Ok t /\
    ((t <> INCREASE_COUNT /\ (h', v) = default_state h s)
     \/ (t = INCREASE_COUNT /\ exists c c',
           get (default_state h s).1 (default_state h s).2 "clicks" = Ok c
           /\ add_one (default_state h s).1 c = Ok c'
           /\ (h', v) = alloc (default_state h s).1 (record c'))).
Proof.
  unfold counterReducer.
  assert (Hg : get (default_state h s).1 a "type" = get h a "type").
  { destruct s; try reflexivity. apply get_type_alloc. }
  destruct (default_state h s) as [h1 s1]. cbn [fst snd] in *. rewrite Hg.
  destruct (get h a "type") as [t|]; [|discriminate]. cbn.
  destruct (strict_equals t INCREASE_COUNT) eqn:Et.
  - apply strict_equals_INCREASE in Et.
    destruct (get h1 s1 "clicks") as [c|] eqn:Hc; [|discriminate]. cbn.
    destruct (add_one h1 c) as [c'|] eqn:Hc'; [|discriminate]. cbn.
    intros [= <- <-]. exists t. split; [reflexivity|]. right. split; [exact Et|].
    exists c, c'. repeat split; first [reflexivity | assumption].
  - intros [= <- <-]. exists t. split; [reflexivity|]. left. split; [|reflexivity].
    intros ->. rewrite (proj2 (strict_equals_INCREASE _) eq_refl) in Et. discriminate.
Qed.

(** One step on a state that holds an integer count. *)
Lemma step_clicks h s a t n :
  clicks_int h s = Some n -> get h a "type" = Ok t ->
  exists h' s' n',
    counterReducer h s a = Ok (h', s') /\ clicks_int h' s' = Some n' /\
    ((t <> INCREASE_COUNT /\ n' = n)
     \/ (t = INCREASE_COUNT /\ - 2 ^ 53 <= n < 2 ^ 53 /\ n' = n + 1)
     \/ (t = INCREASE_COUNT /\ (n < - 2 ^ 53 \/ 2 ^ 53 <= n) /\ (n' = n \/ n' = n + 2))).
Proof.
  intros Hn Ha. destruct (clicks_int_inv _ _ _ Hn) as (x & Hc & Hx).
  assert (Hdec : t = INCREASE_COUNT \/ t <> INCREASE_COUNT).
  { destruct (strict_equals t INCREASE_COUNT) eqn:Et.
    - left. apply strict_equals_INCREASE, Et.
    - right. intros E. apply strict_equals_INCREASE in E. congruence. }
  destruct Hdec as [->|Ht].
  - rewrite (reducer_increase _ _ _ _ Hc Ha).
    pose proof (result_clicks_alloc h (Num.add x Num.one)) as Hr.
    unfold result_clicks, alloc in Hr.
    destruct (Z_lt_le_dec n (- 2 ^ 53)) as [Hlo|Hlo];
      [|destruct (Z_lt_le_dec n (2 ^ 53)) as [Hhi|Hhi]].
    + destruct (add_one_rounded x n Hx (or_introl Hlo)) as (n' & Hn' & Hor).
      eexists _, _, n'. split; [reflexivity|]. rewrite Hr. split; [exact Hn'|].
      right; right. auto.
    + eexists _, _, (n + 1). split; [reflexivity|]. rewrite Hr.
      split; [apply add_one_exact; [exact Hx | lia]|]. right; left. auto.
    + destruct (add_one_rounded x n Hx (or_intror Hhi)) as (n' & Hn' & Hor).
      eexists _, _, n'. split; [reflexivity|]. rewrite Hr. split; [exact Hn'|].
      right; right. auto.
  - apply clicks_get in Hc as [Hs _].
    rewrite (reducer_default _ _ _ _ Hs Ha Ht). eauto 10.
Qed.

(** The count of the initial state is 0, or 1 when the reducer is seeded
    with an [INCREASE_COUNT] action. *)
Lemma init_clicks h a0 h' s' :
  init h a0 = Ok (h', s') -> exists n, clicks_int h' s' = Some n /\ 0 <= n <= 1.
Proof.
  intros Hi. apply reducer_inv in Hi as (t & Ht & [[_ Hd] | [_ (c & c' & Hc & Hc' & Hd)]]).
  - injection Hd as -> ->. exists 0. split; [|lia].
    unfold clicks_int. rewrite clicks_alloc. reflexivity.
  - cbn [default_state alloc fst snd] in *.
    unfold get in Hc. rewrite lookup_alloc in Hc. injection Hc as <-.
    injection Hc' as <-. injection Hd as -> ->. exists 1. split; [|lia].
    unfold clicks_int. rewrite clicks_alloc. reflexivity.
Qed.

End Steps.

Lemma reducer_unreadable (h : heap) (s a : value) :
  a = VUndefined \/ a = VNull -> counterReducer h s a = TypeError.
Proof.
  intros Ha. unfold counterReducer. destruct (default_state h s) as [h1 s1].
  rewrite (get_unreadable h1 a "type" Ha). reflexivity.
Qed.

Lemma reducer_increase_undefined (h : heap) (a : value) :
  get h a "type" = Ok INCREASE_COUNT ->
  counterReducer h VUndefined a
  = Ok (alloc (h ++ [record (VNum Num.zero)]) (record (VNum (Num.of_Z 1)))).
Proof.
  intros Ha. unfold counterReducer. cbn [default_state alloc].
  rewrite get_type_alloc, Ha. cbn. unfold get. rewrite lookup_alloc. reflexivity.
Qed.

Section Counting.

Variables (h : heap) (a0 a t0 : value).
Hypothesis Hinit : get h a0 "type" = Ok t0.
Hypothesis Hsentinel : t0 <> INCREASE_COUNT.
Hypothesis Hincrease : get h a "type" = Ok INCREASE_COUNT.

Lemma counted_init : counted a (init h a0) 0.
Proof.
  unfold init. rewrite (reducer_seed _ _ _ Hinit Hsentinel).
  eexists _, _. split; [reflexivity|]. split.
  - unfold clicks_int. rewrite clicks_alloc. reflexivity.
  - rewrite get_type_alloc. exact Hincrease.
Qed.

Lemma counted_step r c :
  counted a r c ->
  counted a (dispatch a r) (if c <? Num.limit then c + 1 else c) \/ Num.limit < c \/ c < 0.
Proof.
  intros (h1 & s1 & -> & Hc & Ha).
  destruct (Z_lt_le_dec c 0); [auto|].
  destruct (Z_lt_le_dec Num.limit c); [auto|]. left.
  destruct (clicks_int_inv _ _ _ Hc) as (x & Hx & Hz).
  unfold dispatch. cbn. rewrite (reducer_increase _ _ _ _ Hx Ha).
  eexists _, _. split; [reflexivity|]. split.
  - pose proof (result_clicks_alloc h1 (Num.add x Num.one)) as Hr.
    unfold result_clicks, alloc in Hr. unfold alloc. rewrite Hr.
    unfold Num.limit in *. destruct (Z.ltb_spec c (2 ^ 53)).
    + apply add_one_exact; [exact Hz | lia].
    + assert (c = Num.limit) as -> by (unfold Num.limit; lia).
      apply add_one_limit. exact Hz.
  - unfold alloc. rewrite get_type_alloc. exact Ha.
Qed.

Lemma run_succ n : run (N.succ n) h a0 a = dispatch a (run n h a0 a).
Proof. unfold run. apply N.iter_succ. Qed.

(** The count follows the number of dispatches up to [2 ^ 53] and stays
    there. *)
Lemma run_counted n : counted a (run n h a0 a) (Z.min (Z.of_N n) Num.limit).
Proof.
  induction n as [|n IH] using N.peano_ind.
  - exact counted_init.
  - rewrite run_succ. destruct (counted_step _ _ IH) as [H | H].
    + unfold Num.limit in *.
      destruct (Z.ltb_spec (Z.min (Z.of_N n) (2 ^ 53)) (2 ^ 53)).
      * replace (Z.min (Z.of_N (N.succ n)) (2 ^ 53)) with (Z.min (Z.of_N n) (2 ^ 53) + 1) by lia.
        exact H.
      * replace (Z.min (Z.of_N (N.succ n)) (2 ^ 53)) with (Z.min (Z.of_N n) (2 ^ 53)) by lia.
        exact H.
    + unfold Num.limit in *. lia.
Qed.

Lemma run_clicks n :
  result_clicks (run n h a0 a) = Some (Z.min (Z.of_N n) Num.limit).
Proof.
  destruct (run_counted n) as (h1 & s1 & -> & Hc & _). exact Hc.
Qed.

End Counting.

(** ** The claims *)

(** C1, as amended.  Starting from the state the reducer computes for an
    [undefined] state and an initial action, [n] dispatches of an
    [INCREASE_COUNT] action give a state whose [clicks] is the initial count,
    0, plus [n], for every [n] up to [2 ^ 53]; from there on the count stays
    at [2 ^ 53]. *)
Theorem increase_count_n (h : heap) (a0 a t0 : value) (n : N) :
  get h a0 "type" = Ok t0 -> t0 <> INCREASE_COUNT ->
  get h a "type" = Ok INCREASE_COUNT ->
  result_clicks (init h a0) = Some 0
  /\ (Z.of_N n <= 2 ^ 53 -> result_clicks (run n h a0 a) = Some (0 + Z.of_N n))
  /\ (2 ^ 53 <= Z.of_N n -> result_clicks (run n h a0 a) = Some (2 ^ 53)).
Proof.
  intros H0 Ht Ha. split; [|split].
  - apply (run_clicks h a0 a t0 H0 Ht Ha 0%N).
  - intros Hn. rewrite (run_clicks h a0 a t0 H0 Ht Ha n). unfold Num.limit. f_equal. lia.
  - intros Hn. rewrite (run_clicks h a0 a t0 H0 Ht Ha n). unfold Num.limit. f_equal. lia.
Qed.

Lemma increase_count_n_witness :
  get actions INIT "type" = Ok (VStr "@@redux/INIT")
  /\ VStr "@@redux/INIT" <> INCREASE_COUNT
  /\ get actions INCREASE "type" = Ok INCREASE_COUNT
  /\ result_clicks (run 3 actions INIT INCREASE) = Some (0 + 3).
Proof.
  split; [reflexivity|]. split; [discriminate|]. split; [reflexivity|].
  apply (increase_count_n actions INIT INCREASE (VStr "@@redux/INIT") 3%N);
    [reflexivity | discriminate | reflexivity | vm_compute; discriminate].
Defined.

(** C1 fails past the largest count: after [2 ^ 53 + 1] dispatches the
    count is not [0 + (2 ^ 53 + 1)]. *)
Lemma increase_count_past_limit :
  result_clicks (run (2 ^ 53 + 1) actions INIT INCREASE)
  <> Some (0 + Z.of_N (2 ^ 53 + 1)).
Proof.
  rewrite (run_clicks actions INIT INCREASE (VStr "@@redux/INIT"));
    [| reflexivity | discriminate | reflexivity].
  vm_compute. discriminate.
Qed.

(** C2, as amended.  For every state other than [undefined] and every
    action whose [type] is not the string "INCREASE_COUNT" (a missing
    [type] reads as [undefined]; it may be any value that is not that
    string), the reducer returns the very state it was given, and the heap
    as it was.  For the [undefined] state it returns the new record
    [{ clicks: 0 }] the default parameter builds. *)
Theorem default_identity (h : heap) (s a t : value) :
  get h a "type" = Ok t -> t <> INCREASE_COUNT ->
  (s <> VUndefined -> counterReducer h s a = Ok (h, s))
  /\ (s = VUndefined ->
      counterReducer h s a = Ok (h ++ [record (VNum Num.zero)], VObj (length h))).
Proof.
  intros Ha Ht. apply strict_equals_other in Ht. split.
  - intros Hs. unfold counterReducer. rewrite (default_state_defined h s Hs), Ha.
    cbn. rewrite Ht. reflexivity.
  - intros ->. unfold counterReducer. cbn [default_state alloc].
    rewrite get_type_alloc, Ha. cbn. rewrite Ht. reflexivity.
Qed.

Lemma default_identity_witness :
  get at_limit DECREASE "type" = Ok (VStr "DECREASE_COUNT")
  /\ VStr "DECREASE_COUNT" <> INCREASE_COUNT
  /\ LIMIT <> VUndefined
  /\ counterReducer at_limit LIMIT DECREASE = Ok (at_limit, LIMIT).
Proof.
  split; [reflexivity|]. split; [discriminate|]. split; [discriminate|].
  apply (proj1 (default_identity at_limit LIMIT DECREASE (VStr "DECREASE_COUNT")
                  eq_refl ltac:(discriminate))).
  discriminate.
Defined.

(** C2 fails on the [undefined] state: with an unhandled action the
    reducer returns a new record, not [undefined]. *)
Lemma default_replaces_undefined :
  get actions DECREASE "type" = Ok (VStr "DECREASE_COUNT")
  /\ VStr "DECREASE_COUNT" <> INCREASE_COUNT
  /\ counterReducer actions VUndefined DECREASE
     = Ok (actions ++ [record (VNum (Num.of_Z 0))], VObj 3%nat)
  /\ counterReducer actions VUndefined DECREASE <> Ok (actions, VUndefined).
Proof.
  split; [reflexivity|]. split; [discriminate|]. split; [vm_compute; reflexivity|].
  vm_compute. discriminate.
Qed.

(** C3.  Called with an [undefined] state and an action whose [type] is not
    "INCREASE_COUNT", the reducer returns the record [{ clicks: 0 }]; this
    is the initial state, and its count is 0. *)
Theorem seed_state (h : heap) (a t : value) :
  get h a "type" = Ok t -> t <> INCREASE_COUNT ->
  exists h' s',
    counterReducer h VUndefined a = Ok (h', s')
    /\ init h a = Ok (h', s')
    /\ view h' s' = inr (Some (record (VNum (Num.of_Z 0))))
    /\ clicks_int h' s' = Some 0.
Proof.
  intros Ha Ht. unfold init. rewrite (reducer_seed h a t Ha Ht).
  eexists _, _. split; [reflexivity|]. split; [reflexivity|]. split.
  - unfold view. rewrite lookup_alloc. reflexivity.
  - unfold clicks_int. rewrite clicks_alloc. reflexivity.
Qed.

Lemma seed_state_witness :
  get actions INIT "type" = Ok (VStr "@@redux/INIT")
  /\ VStr "@@redux/INIT" <> INCREASE_COUNT
  /\ exists h' s',
    counterReducer actions VUndefined INIT = Ok (h', s')
    /\ init actions INIT = Ok (h', s')
    /\ view h' s' = inr (Some (record (VNum (Num.of_Z 0))))
    /\ clicks_int h' s' = Some 0.
Proof.
  split; [reflexivity|]. split; [discriminate|].
  apply (seed_state actions INIT (VStr "@@redux/INIT")); [reflexivity | discriminate].
Defined.

(** C4.  The scenario: the initial state is [{ clicks: 0 }]; after a
    dispatch of [{ type: "INCREASE_COUNT" }] the state is [{ clicks: 1 }];
    after a dispatch of the unhandled [{ type: "DECREASE_COUNT" }] the
    state is still that [{ clicks: 1 }].  Each state is told three ways:
    as the record of the literal, as the map with the one key [clicks]
    bound to the double [+0], or to [2 ^ 52 * 2 ^ -52], and by the integer
    its count denotes. *)
Theorem scenario :
  let s0 := init actions INIT in
  let s1 := dispatch INCREASE s0 in
  let s2 := dispatch DECREASE s1 in
  result_view s0 = Some (inr (Some (record (VNum (Num.of_Z 0)))))
  /\ result_view s1 = Some (inr (Some (record (VNum (Num.of_Z 1)))))
  /\ result_view s2 = Some (inr (Some (record (VNum (Num.of_Z 1)))))
  /\ s2 = s1
  /\ result_view s0
     = Some (inr (Some ({[ "clicks"%string := VNum (S754_zero false) ]} : obj)))
  /\ result_view s1
     = Some (inr (Some ({[ "clicks"%string :=
                            VNum (S754_finite false 4503599627370496 (-52)) ]} : obj)))
  /\ result_view s2
     = Some (inr (Some ({[ "clicks"%string :=
                            VNum (S754_finite false 4503599627370496 (-52)) ]} : obj)))
  /\ result_clicks s0 = Some 0
  /\ result_clicks s1 = Some 1
  /\ result_clicks s2 = Some 1.
Proof. cbv zeta. repeat apply conj; vm_compute; reflexivity. Qed.

Lemma step_nonneg (h : heap) (s a t : value) (n : Z) :
  clicks_int h s = Some n -> 0 <= n -> get h a "type" = Ok t ->
  exists h' s' n',
    counterReducer h s a = Ok (h', s') /\ clicks_int h' s' = Some n' /\ 0 <= n'.
Proof.
  intros Hn H0 Ha.
  destruct (step_clicks h s a t n Hn Ha) as (h' & s' & n' & Hr & Hc & Hcase).
  exists h', s', n'. split; [exact Hr|]. split; [exact Hc|]. lia.
Qed.

(** C5.  A count that is a non-negative integer stays one.  From a state
    whose [clicks] is a non-negative integer, the reducer returns, for
    every action, a state whose [clicks] is a non-negative integer; the
    only calls that return no state are those that throw on an [undefined]
    or [null] action.  So the count of every state reached from the initial
    one is a non-negative integer. *)
Theorem clicks_nonneg_invariant :
  (forall (h : heap) (s a : value) (n : Z),
      clicks_int h s = Some n -> 0 <= n ->
      match counterReducer h s a with
      | Ok (h', s') => exists n', clicks_int h' s' = Some n' /\ 0 <= n'
      | TypeError => a = VUndefined \/ a = VNull
      end)
  /\ (forall (h : heap) (s : value),
         reachable h s -> exists n, clicks_int h s = Some n /\ 0 <= n).
Proof.
  split.
  - intros h s a n Hn H0.
    destruct (decide (a = VUndefined)) as [->|Hu];
      [rewrite reducer_unreadable by auto; auto|].
    destruct (decide (a = VNull)) as [->|Hl];
      [rewrite reducer_unreadable by auto; auto|].
    destruct (get_readable h a "type" Hu Hl) as [t Ht].
    destruct (step_nonneg h s a t n Hn H0 Ht) as (h' & s' & n' & -> & Hc & Hn').
    eauto.
  - induction 1 as [h a0 h' s' Hi | h s h1 a h' s' _ IH Hp Hr].
    + destruct (init_clicks h a0 h' s' Hi) as (n & Hn & Hb). exists n. split; [exact Hn | lia].
    + destruct IH as (n & Hn & H0).
      apply (clicks_int_prefix _ _ _ _ Hp) in Hn.
      destruct (reducer_inv _ _ _ _ _ Hr) as (t & Ht & _).
      destruct (step_nonneg h1 s a t n Hn H0 Ht) as (h2 & s2 & n' & Hr' & Hc & Hn').
      rewrite Hr in Hr'. injection Hr' as -> ->. eauto.
Qed.

Lemma clicks_nonneg_invariant_witness :
  clicks_int at_limit LIMIT = Some (2 ^ 53) /\ 0 <= 2 ^ 53
  /\ match counterReducer at_limit LIMIT INCREASE with
     | Ok (h', s') => exists n', clicks_int h' s' = Some n' /\ 0 <= n'
     | TypeError => INCREASE = VUndefined \/ INCREASE = VNull
     end.
Proof.
  split; [reflexivity|]. split; [vm_compute; discriminate|].
  apply (proj1 clicks_nonneg_invariant at_limit LIMIT INCREASE (2 ^ 53));
    [reflexivity | vm_compute; discriminate].
Defined.

(** C6.  The reducer does not change its input state: every object of the
    heap, the input state among them, is after the call what it was before;
    and on the "INCREASE_COUNT" branch the state returned is a new object,
    at a location the heap did not have, so not the input state. *)
Theorem state_not_mutated (h : heap) (s a : value) (h' : heap) (v : value) :
  counterReducer h s a = Ok (h', v) ->
  (forall l o, h !! l = Some o -> h' !! l = Some o)
  /\ (forall l, s = VObj l -> is_Some (h !! l) -> view h' s = view h s)
  /\ (get h a "type" = Ok INCREASE_COUNT ->
      exists l', v = VObj l' /\ h !! l' = None /\ is_Some (h' !! l')
        /\ forall l, s = VObj l -> is_Some (h !! l) -> v <> s).
Proof.
  intros Hr. pose proof (reducer_extends _ _ _ _ _ Hr) as Hp.
  split; [|split].
  - intros l o Hl. exact (prefix_lookup_Some _ _ _ _ Hl Hp).
  - intros l -> [o Hl]. unfold view. rewrite Hl.
    rewrite (prefix_lookup_Some _ _ _ _ Hl Hp). reflexivity.
  - intros Ha. destruct (reducer_inv _ _ _ _ _ Hr) as (t & Ht & [[Hne _] | [_ (c & c' & _ & _ & Hd)]]).
    { congruence. }
    set (h1 := (default_state h s).1) in *.
    assert (Hlen : (length h <= length h1)%nat).
    { unfold h1. destruct s; simpl; rewrite ?length_app; simpl; lia. }
    unfold alloc in Hd. injection Hd as -> ->.
    exists (length h1). split; [reflexivity|]. split; [|split].
    + apply lookup_ge_None. exact Hlen.
    + rewrite lookup_alloc. eauto.
    + intros l -> [o Hl] [= E]. apply lookup_lt_Some in Hl. lia.
Qed.

Lemma state_not_mutated_witness :
  counterReducer at_limit LIMIT INCREASE
  = Ok (at_limit ++ [record (VNum (Num.of_Z (2 ^ 53)))], VObj 4%nat)
  /\ view (at_limit ++ [record (VNum (Num.of_Z (2 ^ 53)))]) LIMIT = view at_limit LIMIT.
Proof.
  assert (H : counterReducer at_limit LIMIT INCREASE
              = Ok (at_limit ++ [record (VNum (Num.of_Z (2 ^ 53)))], VObj 4%nat))
    by (vm_compute; reflexivity).
  split; [exact H|].
  apply (proj1 (proj2 (state_not_mutated _ _ _ _ _ H)) 3%nat); [reflexivity | vm_compute; eauto].
Defined.

Lemma get_view (h1 h2 : heap) (v : value) (k : string) :
  view h1 v = view h2 v -> get h1 v k = get h2 v k.
Proof.
  destruct v as [| | | | | | |l]; try reflexivity. simpl. intros [= ->]. reflexivity.
Qed.

Lemma add_one_view (h1 h2 : heap) (c : value) :
  view h1 c = view h2 c -> add_one h1 c = add_one h2 c.
Proof.
  destruct c as [| | | | | | |l]; try reflexivity. simpl. intros [= ->]. reflexivity.
Qed.

(** C7.  The reducer is deterministic: two calls on the same state and
    action give the same result, whatever else the heap holds at each call,
    as long as the state, its count and the action are the same at both.
    Both calls throw, or both return: the same primitive, or an object with
    the same properties. *)
Theorem reducer_deterministic (h1 h2 : heap) (s a : value) :
  view h1 s = view h2 s -> view h1 a = view h2 a ->
  (forall c, get h1 s "clicks" = Ok c -> view h1 c = view h2 c) ->
  result_view (counterReducer h1 s a) = result_view (counterReducer h2 s a).
Proof.
  intros Hs Ha Hc. apply (get_view _ _ _ "type") in Ha as Ht.
  destruct (get h2 a "type") as [t|] eqn:Ht2.
  2: { assert (Hn : a = VUndefined \/ a = VNull).
       { destruct a as [| | | | | | |l]; auto; try discriminate.
         simpl in Ht2. destruct (h2 !! l); discriminate. }
       rewrite !reducer_unreadable by exact Hn. reflexivity. }
  destruct (decide (t = INCREASE_COUNT)) as [->|Hne];
    destruct (decide (s = VUndefined)) as [->|Hu].
  - rewrite !reducer_increase_undefined by assumption.
    unfold alloc, result_view, view. rewrite !lookup_alloc. reflexivity.
  - unfold counterReducer. rewrite !default_state_defined by exact Hu.
    rewrite Ht, Ht2. cbn. rewrite <- (get_view _ _ _ "clicks" Hs).
    destruct (get h1 s "clicks") as [c|]; [|reflexivity]. cbn.
    rewrite <- (add_one_view h1 h2 c (Hc c eq_refl)).
    destruct (add_one h1 c) as [c'|]; [|reflexivity]. cbn.
    unfold view. rewrite !lookup_alloc. reflexivity.
  - rewrite !(reducer_seed _ a t) by assumption.
    unfold alloc, result_view, view. rewrite !lookup_alloc. reflexivity.
  - rewrite !(reducer_default _ s a t) by assumption. cbn. f_equal. exact Hs.
Qed.

Lemma reducer_deterministic_witness :
  view at_limit LIMIT = view (at_limit ++ [action "RESET"]) LIMIT
  /\ view at_limit INCREASE = view (at_limit ++ [action "RESET"]) INCREASE
  /\ result_view (counterReducer at_limit LIMIT INCREASE)
     = result_view (counterReducer (at_limit ++ [action "RESET"]) LIMIT INCREASE).
Proof.
  split; [reflexivity|]. split; [reflexivity|].
  apply (reducer_deterministic at_limit (at_limit ++ [action "RESET"]) LIMIT INCREASE);
    [reflexivity | reflexivity |].
  intros c [= <-]. reflexivity.
Defined.

Lemma reducer_default_returns (h : heap) (s a t : value) :
  get h a "type" = Ok t -> t <> INCREASE_COUNT ->
  exists h' v, counterReducer h s a = Ok (h', v).
Proof.
  intros Ha Ht. destruct (decide (s = VUndefined)) as [->|Hs].
  - rewrite (reducer_seed h a t Ha Ht). unfold alloc. eauto.
  - rewrite (reducer_default h s a t Hs Ha Ht). eauto.
Qed.

(** Where the "INCREASE_COUNT" branch throws: at [state.clicks] on [null],
    or at the addition. *)
Lemma reducer_increase_throws (h : heap) (s a : value) :
  get h a "type" = Ok INCREASE_COUNT ->
  counterReducer h s a = TypeError
  <-> s = VNull
      \/ (s <> VUndefined /\ exists c, get h s "clicks" = Ok c /\ add_one h c = TypeError).
Proof.
  intros Ha. destruct (decide (s = VUndefined)) as [->|Hs].
  - rewrite (reducer_increase_undefined h a Ha).
    split; [discriminate|]. intros [?|[? _]]; congruence.
  - unfold counterReducer. rewrite (default_state_defined h s Hs), Ha. cbn.
    destruct (decide (s = VNull)) as [->|Hn]; [cbn; tauto|].
    destruct (get_readable h s "clicks" Hs Hn) as [c Hc]. rewrite Hc. cbn.
    destruct (add_one h c) as [c'|] eqn:Hc'; cbn.
    + split; [discriminate|]. intros [?|[_ (c0 & [= <-] & E)]]; congruence.
    + split; [|reflexivity]. intros _. right. split; [exact Hs|]. eauto.
Qed.

(** C8, as amended.  The reducer reads [action.type] before anything else,
    so it throws when the action is [undefined] or [null].  For any other
    action it returns, for every state, when the action's [type] is not
    "INCREASE_COUNT".  When it is, the reducer returns for the [undefined]
    state and for every state whose [clicks] is missing, [null], a
    boolean, a Number or a string; it throws for the [null] state, where
    [state.clicks] is read, and for a state whose [clicks] is a BigInt or
    a Symbol, where [state.clicks + 1] throws. *)
Theorem reducer_total (h : heap) (s a : value) :
  (a = VUndefined \/ a = VNull -> counterReducer h s a = TypeError)
  /\ (forall t, get h a "type" = Ok t -> t <> INCREASE_COUNT ->
       exists h' v, counterReducer h s a = Ok (h', v))
  /\ (get h a "type" = Ok INCREASE_COUNT ->
      (s = VNull -> counterReducer h s a = TypeError)
      /\ (s = VUndefined -> exists h' v, counterReducer h s a = Ok (h', v))
      /\ (forall c, s <> VUndefined -> get h s "clicks" = Ok c ->
          (c = VUndefined \/ c = VNull \/ (exists b, c = VBool b)
           \/ (exists x, c = VNum x) \/ (exists t, c = VStr t) ->
           exists h' v, counterReducer h s a = Ok (h', v))
          /\ ((exists z, c = VBigInt z) \/ (exists i, c = VSymbol i) ->
              counterReducer h s a = TypeError))).
Proof.
  split; [apply reducer_unreadable|].
  split; [intros t; apply reducer_default_returns|].
  intros Ha. split; [|split].
  - intros ->. apply (reducer_increase_throws h VNull a Ha). auto.
  - intros ->. rewrite (reducer_increase_undefined h a Ha). unfold alloc. eauto.
  - intros c Hs Hc. split.
    + intros Hcase.
      assert (Hadd : exists c', add_one h c = Ok c').
      { destruct Hcase as [-> | [-> | [[b ->] | [[x ->] | [t ->]]]]]; cbn; eauto. }
      destruct Hadd as [c' Hc'].
      rewrite (reducer_add h s a c c' Hs Hc Hc' Ha). unfold alloc. eauto.
    + intros Hcase. apply (reducer_increase_throws h s a Ha). right.
      split; [exact Hs|]. exists c. split; [exact Hc|].
      destruct Hcase as [[z ->] | [i ->]]; reflexivity.
Qed.

Lemma reducer_total_witness :
  get with_bigint INCREASE "type" = Ok INCREASE_COUNT
  /\ BIG <> VUndefined
  /\ get with_bigint BIG "clicks" = Ok (VBigInt 5)
  /\ counterReducer with_bigint BIG INCREASE = TypeError
  /\ exists h' v, counterReducer actions VUndefined INCREASE = Ok (h', v).
Proof.
  split; [reflexivity|]. split; [discriminate|]. split; [reflexivity|]. split.
  - apply (proj2 (proj2 (proj2 (proj2 (proj2
             (reducer_total with_bigint BIG INCREASE)) eq_refl))
           (VBigInt 5) ltac:(discriminate) eq_refl)).
    left. exists 5. reflexivity.
  - apply (proj1 (proj2 (proj2 (proj2 (reducer_total actions VUndefined INCREASE)) eq_refl)));
      reflexivity.
Defined.

(** C8 fails on the [null] state: the action is an object, and the reducer
    throws. *)
Lemma reducer_throws_on_null_state :
  INCREASE <> VUndefined /\ INCREASE <> VNull
  /\ ~ (exists r, counterReducer actions VNull INCREASE = Ok r).
Proof.
  split; [discriminate|]. split; [discriminate|]. intros [r Hr]. vm_compute in Hr. discriminate.
Qed.

(** C9.  On the "INCREASE_COUNT" branch the state returned is a record with
    the one field [clicks]: [clicks] is the only property it has of its
    own.  In particular, from a state that is an object with further
    fields the reducer returns (whenever [clicks + 1] does not throw) an
    object that holds the new count in [clicks] and none of those
    fields. *)
Theorem increase_returns_only_clicks (h : heap) (s a : value) :
  get h a "type" = Ok INCREASE_COUNT ->
  (forall h' v, counterReducer h s a = Ok (h', v) ->
     exists c, view h' v = inr (Some (record c))
       /\ dom (record c) = {[ "clicks"%string ]}
       /\ forall k, k <> "clicks"%string -> record c !! k = None)
  /\ (forall l o c', s = VObj l -> h !! l = Some o ->
       add_one h (default VUndefined (o !! "clicks"%string)) = Ok c' ->
       exists h' v o',
         counterReducer h s a = Ok (h', v)
         /\ view h' v = inr (Some o')
         /\ o' !! "clicks"%string = Some c'
         /\ dom o' = {[ "clicks"%string ]}
         /\ forall k, is_Some (o !! k) -> k <> "clicks"%string -> o' !! k = None).
Proof.
  intros Ha.
  assert (Hk : forall c k, k <> "clicks"%string -> record c !! k = None).
  { intros c k Hk. unfold record. apply lookup_singleton_ne. congruence. }
  split.
  - intros h' v Hr.
    destruct (reducer_inv _ _ _ _ _ Hr) as (t & Ht & [[Hne _] | [_ (c & c' & _ & _ & Hd)]]).
    { congruence. }
    unfold alloc in Hd. injection Hd as -> ->. exists c'. split; [|split].
    + unfold view. rewrite lookup_alloc. reflexivity.
    + unfold record. apply dom_singleton_L.
    + apply Hk.
  - intros l o c' -> Hl Hc'.
    assert (Hc : get h (VObj l) "clicks" = Ok (default VUndefined (o !! "clicks"%string)))
      by (unfold get; rewrite Hl; reflexivity).
    rewrite (reducer_add h (VObj l) a _ c' ltac:(discriminate) Hc Hc' Ha). unfold alloc.
    eexists _, _, (record c'). split; [reflexivity|]. split; [|split; [|split]].
    + unfold view. rewrite lookup_alloc. reflexivity.
    + unfold record. apply lookup_singleton_eq.
    + unfold record. apply dom_singleton_L.
    + intros k _ Hne. apply Hk. exact Hne.
Qed.

Lemma increase_returns_only_clicks_witness :
  get with_user INCREASE "type" = Ok INCREASE_COUNT
  /\ with_user !! 3%nat = Some (<["user"%string := VStr "ann"]> (record (VNum (Num.of_Z 5))))
  /\ exists h' v o',
      counterReducer with_user USER INCREASE = Ok (h', v)
      /\ view h' v = inr (Some o')
      /\ o' !! "clicks"%string = Some (VNum (Num.of_Z 6))
      /\ dom o' = {[ "clicks"%string ]}
      /\ forall k, is_Some ((<["user"%string := VStr "ann"]> (record (VNum (Num.of_Z 5)))) !! k) ->
           k <> "clicks"%string -> o' !! k = None.
Proof.
  split; [reflexivity|]. split; [reflexivity|].
  apply (proj2 (increase_returns_only_clicks with_user USER INCREASE eq_refl) 3%nat);
    reflexivity.
Defined.

(** C10, as amended.  The count never decreases.  From a state whose
    [clicks] is an integer [n], the reducer returns, for every action, a
    state whose [clicks] is an integer [n'] with [n <= n'].  An action
    whose [type] is not "INCREASE_COUNT" gives [n' = n]; one whose [type]
    is "INCREASE_COUNT" gives [n' = n + 1] when [- 2 ^ 53 <= n < 2 ^ 53],
    and [n] or [n + 2] outside that range; so [n' = n + 1] exactly when
    the [type] is "INCREASE_COUNT" and [n] is in that range.  The only
    calls that return no state are those that throw on an [undefined] or
    [null] action. *)
Theorem clicks_monotone (h : heap) (s a : value) (n : Z) :
  clicks_int h s = Some n ->
  match counterReducer h s a with
  | Ok (h', s') =>
      exists n', clicks_int h' s' = Some n' /\ n <= n'
        /\ (n' = n + 1
            <-> get h a "type" = Ok INCREASE_COUNT /\ - 2 ^ 53 <= n < 2 ^ 53)
        /\ (get h a "type" <> Ok INCREASE_COUNT -> n' = n)
        /\ (get h a "type" = Ok INCREASE_COUNT ->
            (- 2 ^ 53 <= n < 2 ^ 53 -> n' = n + 1)
            /\ (n < - 2 ^ 53 \/ 2 ^ 53 <= n -> n' = n \/ n' = n + 2))
  | TypeError => a = VUndefined \/ a = VNull
  end.
Proof.
  intros Hn.
  destruct (decide (a = VUndefined)) as [->|Hu];
    [rewrite reducer_unreadable by auto; auto|].
  destruct (decide (a = VNull)) as [->|Hl];
    [rewrite reducer_unreadable by auto; auto|].
  destruct (get_readable h a "type" Hu Hl) as [t Ht].
  destruct (step_clicks h s a t n Hn Ht) as (h' & s' & n' & -> & Hc & Hcase).
  exists n'. split; [exact Hc|]. rewrite Ht.
  destruct Hcase as [[Hne ->] | [(-> & Hb & ->) | (-> & Hb & Hn')]].
  - split; [lia|]. split; [|split].
    + split; [lia|]. intros [[= E] _]. contradiction.
    + reflexivity.
    + intros [= E]. contradiction.
  - split; [lia|]. split; [tauto|]. split; [congruence|]. intros _. split; [reflexivity | lia].
  - split; [lia|]. split; [|split].
    + split; [lia|]. intros [_ Hb']. lia.
    + congruence.
    + intros _. split; [lia | intros _; exact Hn'].
Qed.

Lemma clicks_monotone_witness :
  clicks_int with_user USER = Some 5
  /\ match counterReducer with_user USER INCREASE with
     | Ok (h', s') =>
         exists n', clicks_int h' s' = Some n' /\ 5 <= n'
           /\ (n' = 5 + 1
               <-> get with_user INCREASE "type" = Ok INCREASE_COUNT
                   /\ - 2 ^ 53 <= 5 < 2 ^ 53)
           /\ (get with_user INCREASE "type" <> Ok INCREASE_COUNT -> n' = 5)
           /\ (get with_user INCREASE "type" = Ok INCREASE_COUNT ->
               (- 2 ^ 53 <= 5 < 2 ^ 53 -> n' = 5 + 1)
               /\ (5 < - 2 ^ 53 \/ 2 ^ 53 <= 5 -> n' = 5 \/ n' = 5 + 2))
     | TypeError => INCREASE = VUndefined \/ INCREASE = VNull
     end.
Proof.
  split; [reflexivity|].
  apply (clicks_monotone with_user USER INCREASE 5); reflexivity.
Defined.

(** C10 fails at the largest count: an "INCREASE_COUNT" action leaves
    [2 ^ 53] as it is. *)
Lemma increase_at_limit_stays :
  clicks_int at_limit LIMIT = Some (2 ^ 53)
  /\ get at_limit INCREASE "type" = Ok INCREASE_COUNT
  /\ result_clicks (counterReducer at_limit LIMIT INCREASE) = Some (2 ^ 53)
  /\ result_clicks (counterReducer at_limit LIMIT INCREASE) <> Some (2 ^ 53 + 1).
Proof. vm_compute. repeat split. discriminate. Qed.

(** ** Beyond the claims: the reducer on sequences and on unusual states *)

Section Sequences.

Implicit Types (h : heap) (s a b t c v : value) (acts : list value).

Lemma is_increase_alloc h c a : is_increase (h ++ [record c]) a = is_increase h a.
Proof. unfold is_increase. rewrite get_type_alloc. reflexivity. Qed.

Lemma increases_alloc h c acts : increases (h ++ [record c]) acts = increases h acts.
Proof.
  induction acts as [|a acts IH]; [reflexivity|].
  cbn [increases]. rewrite is_increase_alloc, IH. reflexivity.
Qed.

Lemma is_increase_true h a :
  is_increase h a = true <-> get h a "type" = Ok INCREASE_COUNT.
Proof.
  unfold is_increase. destruct (get h a "type") as [t|].
  - rewrite strict_equals_INCREASE. split; congruence.
  - split; discriminate.
Qed.

Lemma is_increase_false h a t :
  get h a "type" = Ok t -> is_increase h a = false -> t <> INCREASE_COUNT.
Proof.
  intros Ht Hf ->. apply is_increase_true in Ht. congruence.
Qed.

(** One step on a count between 0 and [2 ^ 53]: the count goes up by one
    when the action is counted, unless it is at [2 ^ 53] already. *)
Lemma step_bounded h s a n :
  clicks_int h s = Some n -> 0 <= n <= 2 ^ 53 ->
  a <> VUndefined -> a <> VNull ->
  exists h' s',
    counterReducer h s a = Ok (h', s')
    /\ clicks_int h' s'
       = Some (Z.min (n + (if is_increase h a then 1 else 0)) (2 ^ 53))
    /\ (forall acts, increases h' acts = increases h acts).
Proof.
  intros Hn Hb Hu Hl. destruct (get_readable h a "type" Hu Hl) as [t Ht].
  destruct (clicks_int_inv _ _ _ Hn) as (x & Hc & Hx).
  destruct (is_increase h a) eqn:Hi.
  - apply is_increase_true in Hi.
    rewrite (reducer_increase h s a x Hc Hi). unfold alloc.
    eexists _, _. split; [reflexivity|]. split; [|apply increases_alloc].
    unfold clicks_int. rewrite clicks_alloc.
    destruct (Z.eq_dec n (2 ^ 53)) as [->|Hne].
    + rewrite Z.min_r by lia. apply add_one_limit. exact Hx.
    + rewrite Z.min_l by lia. apply add_one_exact; [exact Hx | lia].
  - pose proof (is_increase_false h a t Ht Hi) as Hne.
    apply clicks_get in Hc as [Hs _].
    rewrite (reducer_default h s a t Hs Ht Hne).
    eexists _, _. split; [reflexivity|]. split; [|reflexivity].
    rewrite Hn. f_equal. lia.
Qed.

End Sequences.

(** X1.  Of the action the reducer reads the [type] and nothing else: two
    actions whose [type] reads the same give the same completion, the same
    state in the same heap, whatever else they carry. *)
Theorem only_type_is_read (h : heap) (s a b : value) :
  get h a "type" = get h b "type" -> counterReducer h s a = counterReducer h s b.
Proof.
  intros Hab. unfold counterReducer.
  assert (Hg : forall x, get (default_state h s).1 x "type" = get h x "type").
  { intros x. destruct s; try reflexivity. apply get_type_alloc. }
  destruct (default_state h s) as [h1 s1]. cbn [fst] in Hg.
  rewrite !Hg, Hab. reflexivity.
Qed.

Lemma only_type_is_read_witness :
  get with_payload INCREASE "type" = get with_payload PAYLOAD "type"
  /\ get with_payload PAYLOAD "by" = Ok (VNum (Num.of_Z 10))
  /\ counterReducer with_payload LIMIT INCREASE = counterReducer with_payload LIMIT PAYLOAD.
Proof.
  split; [reflexivity|]. split; [reflexivity|].
  apply (only_type_is_read with_payload LIMIT INCREASE PAYLOAD). reflexivity.
Defined.

(** X2.  Only the number of "INCREASE_COUNT" actions matters.  From a state
    whose count is an integer [n] between 0 and [2 ^ 53], dispatching any
    sequence of actions (none of them [undefined] or [null]) gives the
    count [n] plus the number of actions of the sequence whose [type] is
    "INCREASE_COUNT", capped at [2 ^ 53]; the other actions, wherever they
    stand in the sequence, change nothing. *)
Theorem dispatch_all_counts (acts : list value) (h : heap) (s : value) (n : Z) :
  clicks_int h s = Some n -> 0 <= n <= 2 ^ 53 ->
  Forall (fun a => a <> VUndefined /\ a <> VNull) acts ->
  result_clicks (dispatch_all acts (Ok (h, s)))
  = Some (Z.min (n + increases h acts) (2 ^ 53)).
Proof.
  revert h s n. induction acts as [|a acts IH]; intros h s n Hn Hb Hacts.
  - cbn. rewrite Hn. f_equal. lia.
  - apply Forall_cons in Hacts as [[Hu Hl] Hacts].
    destruct (step_bounded h s a n Hn Hb Hu Hl) as (h' & s' & Hr & Hn' & Hinc).
    unfold dispatch_all. cbn [foldl]. unfold dispatch at 2. cbn. rewrite Hr.
    fold (dispatch_all acts (Ok (h', s'))).
    rewrite (IH h' s' _ Hn') by (try assumption; destruct (is_increase h a); lia).
    rewrite Hinc. cbn [increases].
    assert (0 <= increases h acts).
    { clear. induction acts as [|b acts IH]; cbn [increases]; [lia|].
      destruct (is_increase h b); lia. }
    f_equal. destruct (is_increase h a); lia.
Qed.

Lemma dispatch_all_counts_witness :
  clicks_int with_user USER = Some 5 /\ 0 <= 5 <= 2 ^ 53
  /\ Forall (fun a => a <> VUndefined /\ a <> VNull) [INCREASE; DECREASE; INCREASE; INIT]
  /\ result_clicks (dispatch_all [INCREASE; DECREASE; INCREASE; INIT] (Ok (with_user, USER)))
     = Some (Z.min (5 + increases with_user [INCREASE; DECREASE; INCREASE; INIT]) (2 ^ 53)).
Proof.
  assert (Hf : Forall (fun a => a <> VUndefined /\ a <> VNull)
                 [INCREASE; DECREASE; INCREASE; INIT])
    by (repeat constructor; discriminate).
  split; [reflexivity|]. split; [vm_compute; split; discriminate|]. split; [exact Hf|].
  apply (dispatch_all_counts _ with_user USER 5);
    [reflexivity | vm_compute; split; discriminate | exact Hf].
Defined.

(** X3.  The count of a store never leaves the range from 0 to [2 ^ 53]:
    every state reached from the initial one holds an integer count in
    that range. *)
Theorem reachable_bounded (h : heap) (s : value) :
  reachable h s -> exists n, clicks_int h s = Some n /\ 0 <= n <= 2 ^ 53.
Proof.
  induction 1 as [h a0 h' s' Hi | h s h1 a h' s' _ IH Hp Hr].
  - destruct (init_clicks h a0 h' s' Hi) as (n & Hn & Hb). exists n.
    split; [exact Hn|]. assert (1 <= 2 ^ 53) by (vm_compute; discriminate). lia.
  - destruct IH as (n & Hn & Hb).
    apply (clicks_int_prefix _ _ _ _ Hp) in Hn.
    destruct (reducer_inv _ _ _ _ _ Hr) as (t & Ht & _).
    assert (Hu : a <> VUndefined /\ a <> VNull) by (split; intros ->; discriminate).
    destruct (step_bounded h1 s a n Hn Hb (proj1 Hu) (proj2 Hu)) as (h2 & s2 & Hr' & Hn' & _).
    rewrite Hr in Hr'. injection Hr' as -> ->.
    eexists. split; [exact Hn'|]. destruct (is_increase h1 a); lia.
Qed.

Lemma reachable_bounded_witness :
  reachable
    (actions ++ [record (VNum (Num.of_Z 0)); record (VNum (Num.of_Z 1));
                 record (VNum (Num.of_Z 2))])
    (VObj 5%nat)
  /\ exists n,
      clicks_int
        (actions ++ [record (VNum (Num.of_Z 0)); record (VNum (Num.of_Z 1));
                     record (VNum (Num.of_Z 2))])
        (VObj 5%nat) = Some n
      /\ 0 <= n <= 2 ^ 53.
Proof.
  assert (H0 : reachable (actions ++ [record (VNum (Num.of_Z 0))]) (VObj 3%nat))
    by (apply (reach_init actions INIT); vm_compute; reflexivity).
  assert (H1 : reachable
                 (actions ++ [record (VNum (Num.of_Z 0)); record (VNum (Num.of_Z 1))])
                 (VObj 4%nat)).
  { apply (reach_step _ _ (actions ++ [record (VNum (Num.of_Z 0))]) INCREASE _ _ H0);
      [reflexivity | vm_compute; reflexivity]. }
  assert (H2 : reachable
                 (actions ++ [record (VNum (Num.of_Z 0)); record (VNum (Num.of_Z 1));
                              record (VNum (Num.of_Z 2))])
                 (VObj 5%nat)).
  { apply (reach_step _ _
             (actions ++ [record (VNum (Num.of_Z 0)); record (VNum (Num.of_Z 1))])
             INCREASE _ _ H1);
      [reflexivity | vm_compute; reflexivity]. }
  split; [exact H2|]. apply (reachable_bounded _ _ H2).
Defined.

(** X4.  What the reducer allocates: on return the heap is the one given
    followed by new objects, one when the state was [undefined] plus one
    when the action is counted, so none at all for a defined state and an
    unhandled action, and each of them has [clicks] as its only property. *)
Theorem reducer_allocates (h : heap) (s a : value) (h' : heap) (v : value) :
  counterReducer h s a = Ok (h', v) ->
  exists new,
    h' = h ++ new
    /\ length new
       = ((if decide (s = VUndefined) then 1 else 0)
          + (if is_increase h a then 1 else 0))%nat
    /\ Forall (fun o : obj => dom o = {[ "clicks"%string ]}) new.
Proof.
  intros Hr.
  destruct (reducer_inv _ _ _ _ _ Hr) as (t & Ht & Hcase).
  assert (Hd : exists d, default_state h s = (h ++ d, (default_state h s).2)
            /\ length d = (if decide (s = VUndefined) then 1 else 0)%nat
            /\ Forall (fun o : obj => dom o = {[ "clicks"%string ]}) d).
  { destruct s; try (exists []; rewrite app_nil_r; repeat split; constructor).
    exists [record (VNum Num.zero)]. split; [reflexivity|]. split; [reflexivity|].
    constructor; [apply dom_singleton_L | constructor]. }
  destruct Hd as (d & Hd & Hlen & Hdom).
  destruct Hcase as [[Hne E] | [-> (c & c' & _ & _ & E)]].
  - exists d. rewrite Hd in E. injection E as -> _.
    assert (Hf : is_increase h a = false)
      by (apply not_true_is_false; rewrite is_increase_true; congruence).
    rewrite Hf, Hlen. split; [reflexivity|]. split; [lia | exact Hdom].
  - exists (d ++ [record c']). rewrite Hd in E. cbn [fst alloc] in E.
    injection E as -> _. rewrite app_assoc. split; [reflexivity|].
    rewrite (proj2 (is_increase_true h a) Ht), length_app, Hlen. split; [reflexivity|].
    apply Forall_app. split; [exact Hdom|].
    constructor; [apply dom_singleton_L | constructor].
Qed.

Lemma reducer_allocates_witness :
  counterReducer actions VUndefined INCREASE
  = Ok (actions ++ [record (VNum Num.zero); record (VNum (Num.of_Z 1))], VObj 4%nat)
  /\ exists new,
    actions ++ [record (VNum Num.zero); record (VNum (Num.of_Z 1))] = actions ++ new
    /\ length new
       = ((if decide (VUndefined = VUndefined) then 1 else 0)
          + (if is_increase actions INCREASE then 1 else 0))%nat
    /\ Forall (fun o : obj => dom o = {[ "clicks"%string ]}) new.
Proof.
  assert (H : counterReducer actions VUndefined INCREASE
              = Ok (actions ++ [record (VNum Num.zero); record (VNum (Num.of_Z 1))],
                    VObj 4%nat))
    by (vm_compute; reflexivity).
  split; [exact H|].
  apply (reducer_allocates actions VUndefined INCREASE _ (VObj 4%nat) H).
Defined.

Section Repeated.

Implicit Types (h : heap) (s a t c v : value).

Lemma repeat_dispatch_succ n a h s :
  repeat_dispatch (S n) a h s = dispatch a (repeat_dispatch n a h s).
Proof. reflexivity. Qed.

Lemma repeat_dispatch_first n a h s h1 s1 :
  counterReducer h s a = Ok (h1, s1) ->
  repeat_dispatch (S n) a h s = repeat_dispatch n a h1 s1.
Proof.
  intros Hr. unfold repeat_dispatch. rewrite Nat.iter_succ_r.
  unfold dispatch at 2. cbn. rewrite Hr. reflexivity.
Qed.

(** Repeated "INCREASE_COUNT" on a count [F 0] for which each addition is
    known: [F n] after [n] dispatches. *)
Lemma repeat_dispatch_clicks (F : nat -> value) n a h s :
  (forall k h', add_one h' (F k) = Ok (F (S k))) ->
  clicks h s = Some (F 0%nat) -> get h a "type" = Ok INCREASE_COUNT ->
  exists h' s',
    repeat_dispatch n a h s = Ok (h', s') /\ clicks h' s' = Some (F n)
    /\ get h' a "type" = Ok INCREASE_COUNT.
Proof.
  intros HF Hc Ha. induction n as [|n (h' & s' & Hr & Hc' & Ha')].
  - exists h, s. auto.
  - rewrite repeat_dispatch_succ, Hr. unfold dispatch. cbn.
    apply clicks_get in Hc' as [Hs' Hg].
    rewrite (reducer_add h' s' a (F n) (F (S n)) Hs' Hg (HF n h') Ha'). unfold alloc.
    eexists _, _. split; [reflexivity|]. split; [apply clicks_alloc|].
    rewrite get_type_alloc. exact Ha'.
Qed.

End Repeated.

Lemma append_assoc (s t u : string) : ((s ++ t) ++ u = s ++ (t ++ u))%string.
Proof.
  induction s as [|x s IH]; [reflexivity|].
  change (String x ((s ++ t) ++ u) = String x (s ++ (t ++ u)))%string.
  rewrite IH. reflexivity.
Qed.

Lemma add_one_not_finite (x : Num.number) :
  not_finite x = true -> Num.add x Num.one = x.
Proof. destruct x as [| [|] | |]; try discriminate; reflexivity. Qed.

(** X5.  A state without a [clicks] property (an object that lacks it, or
    a primitive value) is not repaired: the first "INCREASE_COUNT" makes
    the count NaN and it is NaN after every further one. *)
Theorem missing_clicks_gives_nan (n : nat) (h : heap) (s a : value) :
  s <> VUndefined -> get h s "clicks" = Ok VUndefined ->
  get h a "type" = Ok INCREASE_COUNT ->
  exists h' s',
    repeat_dispatch (S n) a h s = Ok (h', s')
    /\ clicks h' s' = Some (VNum Num.nan).
Proof.
  intros Hs Hc Ha.
  rewrite (repeat_dispatch_first n a h s _ _
             (reducer_add h s a VUndefined (VNum Num.nan) Hs Hc eq_refl Ha)).
  destruct (repeat_dispatch_clicks (fun _ => VNum Num.nan) n a
              (h ++ [record (VNum Num.nan)]) (VObj (length h)))
    as (h' & s' & Hr & Hc' & _).
  - intros k h'. reflexivity.
  - apply clicks_alloc.
  - rewrite get_type_alloc. exact Ha.
  - eauto.
Qed.

Lemma missing_clicks_gives_nan_witness :
  NOCLICKS <> VUndefined /\ get without_clicks NOCLICKS "clicks" = Ok VUndefined
  /\ get without_clicks INCREASE "type" = Ok INCREASE_COUNT
  /\ exists h' s',
      repeat_dispatch 3 INCREASE without_clicks NOCLICKS = Ok (h', s')
      /\ clicks h' s' = Some (VNum Num.nan).
Proof.
  split; [discriminate|]. split; [reflexivity|]. split; [reflexivity|].
  apply (missing_clicks_gives_nan 2 without_clicks NOCLICKS INCREASE);
    [discriminate | reflexivity | reflexivity].
Defined.

(** X6.  A count that is NaN or an infinity never changes: after any
    number of "INCREASE_COUNT" dispatches it is the same Number. *)
Theorem not_finite_clicks_stay (n : nat) (h : heap) (s a : value) (x : Num.number) :
  clicks h s = Some (VNum x) -> not_finite x = true ->
  get h a "type" = Ok INCREASE_COUNT ->
  exists h' s',
    repeat_dispatch n a h s = Ok (h', s') /\ clicks h' s' = Some (VNum x).
Proof.
  intros Hc Hx Ha.
  destruct (repeat_dispatch_clicks (fun _ => VNum x) n a h s) as (h' & s' & Hr & Hc' & _);
    [| exact Hc | exact Ha | eauto].
  intros k h'. cbn. rewrite (add_one_not_finite x Hx). reflexivity.
Qed.

Lemma not_finite_clicks_stay_witness :
  clicks (actions ++ [record (VNum (S754_infinity false))]) (VObj 3%nat)
  = Some (VNum (S754_infinity false))
  /\ not_finite (S754_infinity false) = true
  /\ get (actions ++ [record (VNum (S754_infinity false))]) INCREASE "type"
     = Ok INCREASE_COUNT
  /\ exists h' s',
      repeat_dispatch 2 INCREASE (actions ++ [record (VNum (S754_infinity false))])
        (VObj 3%nat) = Ok (h', s')
      /\ clicks h' s' = Some (VNum (S754_infinity false)).
Proof.
  split; [reflexivity|]. split; [reflexivity|]. split; [reflexivity|].
  apply (not_finite_clicks_stay 2 _ (VObj 3%nat) INCREASE); reflexivity.
Defined.

(** X7.  A count that is a string is not counted but written to: [n]
    "INCREASE_COUNT" dispatches append [n] characters ["1"] to it. *)
Theorem string_clicks_grow (n : nat) (h : heap) (s a : value) (t : string) :
  clicks h s = Some (VStr t) -> get h a "type" = Ok INCREASE_COUNT ->
  exists h' s',
    repeat_dispatch n a h s = Ok (h', s')
    /\ clicks h' s' = Some (VStr (t ++ ones n)).
Proof.
  intros Hc Ha.
  destruct (repeat_dispatch_clicks (fun k => VStr (t ++ ones k)) n a h s)
    as (h' & s' & Hr & Hc' & _); [| | exact Ha | eauto].
  - intros k h'. cbn [add_one ones]. rewrite append_assoc. reflexivity.
  - cbn [ones]. replace (t ++ "")%string with t; [exact Hc|].
    clear. induction t as [|x t IH]; [reflexivity|].
    change (String x t = String x (t ++ ""))%string. rewrite <- IH. reflexivity.
Qed.

Lemma string_clicks_grow_witness :
  clicks with_text TEXT = Some (VStr "5")
  /\ get with_text INCREASE "type" = Ok INCREASE_COUNT
  /\ exists h' s',
      repeat_dispatch 3 INCREASE with_text TEXT = Ok (h', s')
      /\ clicks h' s' = Some (VStr "5111").
Proof.
  split; [reflexivity|]. split; [reflexivity|].
  apply (string_clicks_grow 3 with_text TEXT INCREASE "5"); reflexivity.
Defined.

(** An integer-valued double of magnitude [2 ^ 54] or more is a multiple
    of 4. *)
Lemma to_Z_large_multiple (x : Num.number) (v : Z) :
  Num.to_Z x = Some v -> 2 ^ 54 <= Z.abs v -> v mod 4 = 0.
Proof.
  intros Hx Hv. destruct x as [s|s| |s m e]; try discriminate.
  { injection Hx as <-. simpl in Hv. lia. }
  destruct (to_Z_finite_inv _ _ _ _ Hx) as (He & Hm & Hn).
  assert (He2 : 2 <= e).
  { destruct (Z.le_gt_cases 2 e); [assumption|].
    assert (0 < 2 ^ (e + 52) <= 2 ^ 53)
      by (split; [apply pow2_pos | apply Z.pow_le_mono_r]; lia).
    change (2 ^ 54) with (2 * 2 ^ 53) in Hv.
    destruct s; simpl in Hn; nia. }
  assert (Hp : 2 ^ (e + 52) = 4 * 2 ^ (e - 2) * 2 ^ 52).
  { replace (e + 52) with (2 + (e - 2) + 52) by lia.
    rewrite !Z.pow_add_r by lia. reflexivity. }
  assert (Hv4 : v = Num.signed s (Z.pos m * 2 ^ (e - 2)) * 4).
  { rewrite Hp in Hn. destruct s; simpl in *; lia. }
  rewrite Hv4. apply Z.mod_mul. lia.
Qed.

(** X8.  From [2 ^ 54] on, in magnitude, the count is stuck: an
    "INCREASE_COUNT" action returns a state with the same count. *)
Theorem large_clicks_stuck (h : heap) (s a : value) (n : Z) :
  clicks_int h s = Some n -> 2 ^ 54 <= Z.abs n ->
  get h a "type" = Ok INCREASE_COUNT ->
  result_clicks (counterReducer h s a) = Some n.
Proof.
  intros Hn Hb Ha. destruct (clicks_int_inv _ _ _ Hn) as (x & Hc & Hx).
  rewrite (reducer_increase h s a x Hc Ha), result_clicks_alloc.
  destruct (Z.eq_dec n (- 2 ^ 54)) as [->|Hne].
  { rewrite (add_one_align x _ Hx). reflexivity. }
  assert (H54 : 2 ^ 54 = 18014398509481984) by reflexivity.
  assert (H53 : 2 ^ 53 = 9007199254740992) by reflexivity.
  destruct (add_one_rounded x n Hx) as (n' & Hn' & [-> | ->]); [lia | exact Hn' |].
  exfalso.
  pose proof (to_Z_large_multiple x n Hx Hb) as H4.
  assert (Hb' : 2 ^ 54 <= Z.abs (n + 2)).
  { destruct (Z.le_gt_cases 0 n); [lia|].
    assert (n mod 4 = 0) by exact H4.
    pose proof (Z.div_mod n 4 ltac:(lia)). lia. }
  pose proof (to_Z_large_multiple _ _ Hn' Hb') as H4'.
  pose proof (Z.div_mod n 4 ltac:(lia)). pose proof (Z.div_mod (n + 2) 4 ltac:(lia)). lia.
Qed.

Lemma large_clicks_stuck_witness :
  clicks_int (actions ++ [record (VNum (Num.of_Z (2 ^ 60)))]) (VObj 3%nat) = Some (2 ^ 60)
  /\ 2 ^ 54 <= Z.abs (2 ^ 60)
  /\ get (actions ++ [record (VNum (Num.of_Z (2 ^ 60)))]) INCREASE "type" = Ok INCREASE_COUNT
  /\ result_clicks (counterReducer (actions ++ [record (VNum (Num.of_Z (2 ^ 60)))])
                      (VObj 3%nat) INCREASE) = Some (2 ^ 60).
Proof.
  split; [reflexivity|]. split; [vm_compute; discriminate|]. split; [reflexivity|].
  apply (large_clicks_stuck _ (VObj 3%nat) INCREASE (2 ^ 60));
    [reflexivity | vm_compute; discriminate | reflexivity].
Defined.

(** ** The reducer with logging *)

Section Logging.

Implicit Types (h : heap) (s a t c v : value).

Lemma get_state_defaulted h s :
  s <> VNull -> exists c, get (default_state h s).1 (default_state h s).2 "clicks" = Ok c.
Proof.
  intros Hs. destruct s as [| | | | | | |l]; try congruence; cbn; eauto.
  - unfold get. rewrite lookup_alloc. eauto.
  - destruct (h !! l); eauto.
Qed.

(** The logging version, call by call. *)
Lemma logging_unfold h s a :
  counterReducer_logging h s a =
  let h1 := (default_state h s).1 in
  let s1 := (default_state h s).2 in
  match get h1 a "type" with
  | TypeError => Logged [[a]] TypeError
  | Ok t =>
      match get h1 s1 "clicks" with
      | TypeError => Logged [[a]] TypeError
      | Ok c =>
          if strict_equals t INCREASE_COUNT then
            match add_one h1 c with
            | TypeError => Logged [[a]; [VStr "Current state.clicks %s"; c]] TypeError
            | Ok c' =>
                Logged [[a]; [VStr "Current state.clicks %s"; c];
                        [VStr "Updating state.clicks to %s"; c']]
                  (Ok (alloc h1 (record c')))
            end
          else
            Logged [[a]; [VStr "Initial state.clicks: %s"; c]] (Ok (h1, s1))
      end
  end.
Proof.
  unfold counterReducer_logging. destruct (default_state h s) as [h1 s1]. cbn [fst snd].
  unfold mbind, logged_bind, mret, logged_ret, console_log, quiet. cbn.
  destruct (get h1 a "type") as [t|]; [|reflexivity]. cbn.
  destruct (strict_equals t INCREASE_COUNT); cbn;
    destruct (get h1 s1 "clicks") as [c|]; cbn; try reflexivity.
  destruct (add_one h1 c) as [c'|]; reflexivity.
Qed.

Lemma reducer_unfold h s a :
  counterReducer h s a =
  let h1 := (default_state h s).1 in
  let s1 := (default_state h s).2 in
  match get h1 a "type" with
  | TypeError => TypeError
  | Ok t =>
      if strict_equals t INCREASE_COUNT then
        match get h1 s1 "clicks" with
        | TypeError => TypeError
        | Ok c =>
            match add_one h1 c with
            | TypeError => TypeError
            | Ok c' => Ok (alloc h1 (record c'))
            end
        end
      else Ok (h1, s1)
  end.
Proof.
  unfold counterReducer. destruct (default_state h s) as [h1 s1]. cbn [fst snd].
  destruct (get h1 a "type") as [t|]; [|reflexivity]. cbn.
  destruct (strict_equals t INCREASE_COUNT); [|reflexivity].
  destruct (get h1 s1 "clicks") as [c|]; [|reflexivity]. cbn.
  destruct (add_one h1 c); reflexivity.
Qed.

End Logging.

Lemma get_type_defaulted (h : heap) (s a : value) :
  get (default_state h s).1 a "type" = get h a "type".
Proof. destruct s; try reflexivity. apply get_type_alloc. Qed.

(** X9.  Logging leaves the result alone, but for one state.  For every
    state other than [null] the logging version completes exactly as the
    reducer does: the same throw, or the same state in the same heap.  On
    the [null] state it always throws, because the default branch now
    reads [state.clicks] to log it, where the reducer returns [null] for
    an action it does not handle. *)
Theorem logging_keeps_result (h : heap) (s a : value) :
  (s <> VNull -> completion (counterReducer_logging h s a) = counterReducer h s a)
  /\ (s = VNull -> completion (counterReducer_logging h s a) = TypeError)
  /\ (s = VNull -> forall t, get h a "type" = Ok t -> t <> INCREASE_COUNT ->
      counterReducer h s a = Ok (h, VNull)).
Proof.
  split; [|split].
  - intros Hs. rewrite logging_unfold, reducer_unfold. cbn zeta.
    destruct (get_state_defaulted h s Hs) as [c ->].
    destruct (get (default_state h s).1 a "type") as [t|]; [|reflexivity].
    destruct (strict_equals t INCREASE_COUNT); [|reflexivity].
    destruct (add_one (default_state h s).1 c); reflexivity.
  - intros ->. rewrite logging_unfold. cbn.
    destruct (get h a "type"); reflexivity.
  - intros -> t Ht Hne. apply (reducer_default h VNull a t); [discriminate | exact Ht | exact Hne].
Qed.

Lemma logging_keeps_result_witness :
  LIMIT <> VNull
  /\ completion (counterReducer_logging at_limit LIMIT INCREASE)
     = counterReducer at_limit LIMIT INCREASE.
Proof.
  split; [discriminate|].
  apply (proj1 (logging_keeps_result at_limit LIMIT INCREASE)). discriminate.
Defined.

(** X10.  The action is logged first, whatever happens next: every call
    logs its action before anything else, also an action that is
    [undefined] or [null], for which this is the only entry.  A call that
    throws has logged the action alone, or the action and the current
    count when it is the addition that throws. *)
Theorem logging_logs_action_first (h : heap) (s a : value) :
  exists rest,
    entries (counterReducer_logging h s a) = [a] :: rest
    /\ (a = VUndefined \/ a = VNull -> rest = [])
    /\ (completion (counterReducer_logging h s a) = TypeError ->
        rest = []
        \/ exists c, rest = [[VStr "Current state.clicks %s"; c]]
             /\ add_one (default_state h s).1 c = TypeError).
Proof.
  rewrite logging_unfold. cbn zeta. rewrite get_type_defaulted.
  destruct (get h a "type") as [t|] eqn:Ht.
  2: { exists []. auto. }
  assert (Ha : ~ (a = VUndefined \/ a = VNull)) by (intros [-> | ->]; discriminate).
  destruct (get (default_state h s).1 (default_state h s).2 "clicks") as [c|].
  2: { exists []. auto. }
  destruct (strict_equals t INCREASE_COUNT).
  - destruct (add_one (default_state h s).1 c) as [c'|] eqn:Hc'.
    + eexists. split; [reflexivity|]. split; [tauto | discriminate].
    + eexists. split; [reflexivity|]. split; [tauto|]. intros _. right. eauto.
  - eexists. split; [reflexivity|]. split; [tauto | discriminate].
Qed.

Lemma logging_logs_action_first_witness :
  entries (counterReducer_logging with_bigint BIG INCREASE)
  = [[INCREASE]; [VStr "Current state.clicks %s"; VBigInt 5]]
  /\ exists rest,
    entries (counterReducer_logging with_bigint BIG INCREASE) = [INCREASE] :: rest
    /\ (INCREASE = VUndefined \/ INCREASE = VNull -> rest = [])
    /\ (completion (counterReducer_logging with_bigint BIG INCREASE) = TypeError ->
        rest = []
        \/ exists c, rest = [[VStr "Current state.clicks %s"; c]]
             /\ add_one (default_state with_bigint BIG).1 c = TypeError).
Proof.
  split; [vm_compute; reflexivity|].
  apply (logging_logs_action_first with_bigint BIG INCREASE).
Defined.

(** X11.  The log tells the state.  When the logging version returns, it
    has logged the action and then, on the default branch, the count of
    the state it returns, or, on the "INCREASE_COUNT" branch, the count
    it started from followed by the count of the state it returns. *)
Theorem logging_reports_state (h : heap) (s a : value) (h' : heap) (v : value) :
  completion (counterReducer_logging h s a) = Ok (h', v) ->
  exists c,
    get (default_state h s).1 (default_state h s).2 "clicks" = Ok c
    /\ ((is_increase h a = false
         /\ entries (counterReducer_logging h s a)
            = [[a]; [VStr "Initial state.clicks: %s"; c]]
         /\ get h' v "clicks" = Ok c)
        \/ (is_increase h a = true
            /\ exists c',
                entries (counterReducer_logging h s a)
                = [[a]; [VStr "Current state.clicks %s"; c];
                   [VStr "Updating state.clicks to %s"; c']]
                /\ get h' v "clicks" = Ok c')).
Proof.
  rewrite logging_unfold. cbn zeta. unfold is_increase. rewrite get_type_defaulted.
  destruct (get h a "type") as [t|]; [|discriminate].
  destruct (get (default_state h s).1 (default_state h s).2 "clicks") as [c|] eqn:Hc;
    [|discriminate].
  destruct (strict_equals t INCREASE_COUNT).
  - destruct (add_one (default_state h s).1 c) as [c'|]; [|discriminate].
    cbn [completion entries alloc]. intros [= <- <-].
    exists c. split; [reflexivity|]. right. split; [reflexivity|].
    exists c'. split; [reflexivity|]. unfold get. rewrite lookup_alloc. reflexivity.
  - cbn [completion entries]. intros [= <- <-].
    exists c. split; [reflexivity|]. left. auto.
Qed.

Lemma logging_reports_state_witness :
  completion (counterReducer_logging actions VUndefined INIT)
  = Ok (actions ++ [record (VNum Num.zero)], VObj 3%nat)
  /\ entries (counterReducer_logging actions VUndefined INIT)
     = [[INIT]; [VStr "Initial state.clicks: %s"; VNum (Num.of_Z 0)]]
  /\ exists c,
    get (default_state actions VUndefined).1 (default_state actions VUndefined).2 "clicks"
    = Ok c
    /\ ((is_increase actions INIT = false
         /\ entries (counterReducer_logging actions VUndefined INIT)
            = [[INIT]; [VStr "Initial state.clicks: %s"; c]]
         /\ get (actions ++ [record (VNum Num.zero)]) (VObj 3%nat) "clicks" = Ok c)
        \/ (is_increase actions INIT = true
            /\ exists c',
                entries (counterReducer_logging actions VUndefined INIT)
                = [[INIT]; [VStr "Current state.clicks %s"; c];
                   [VStr "Updating state.clicks to %s"; c']]
                /\ get (actions ++ [record (VNum Num.zero)]) (VObj 3%nat) "clicks" = Ok c')).
Proof.
  assert (H : completion (counterReducer_logging actions VUndefined INIT)
              = Ok (actions ++ [record (VNum Num.zero)], VObj 3%nat))
    by (vm_compute; reflexivity).
  split; [exact H|]. split; [vm_compute; reflexivity|].
  apply (logging_reports_state actions VUndefined INIT _ _ H).
Defined.
